(** * A shallow embedding of the chat client in [src/react.js]

    The client is one React module: a session manager ([AuthProvider]),
    a view router ([App]), a room directory ([ChatListScreen]) and a
    room transcript ([ChatRoomScreen]).  Every handler is an [async]
    function that talks to the hosted auth service and document
    database; here a handler is a computation in a state-and-exception
    monad over the component's own state and a model of the backend. *)

From Stdlib Require Import ZArith Lia Ascii String Sorted Permutation.
From stdpp Require Import base option list sorting strings pretty gmap.

Local Open Scope string_scope.
Local Open Scope list_scope.
Local Open Scope Z_scope.

(** ** JavaScript strings

    Strings are sequences of code units below 256.  [js_whitespace]
    lists the WhiteSpace and LineTerminator code units of that range,
    which are the ones [String.prototype.trim] removes. *)

Definition js_whitespace (c : ascii) : bool :=
  let n := nat_of_ascii c in
  (Nat.eqb n 9 || Nat.eqb n 10 || Nat.eqb n 11 || Nat.eqb n 12
   || Nat.eqb n 13 || Nat.eqb n 32 || Nat.eqb n 160)%nat%bool.

Fixpoint trimStart (s : string) : string :=
  match s with
  | String c s' => if js_whitespace c then trimStart s' else s
  | EmptyString => EmptyString
  end.

Fixpoint trimEnd (s : string) : string :=
  match s with
  | String c s' =>
      match trimEnd s' with
      | EmptyString => if js_whitespace c then EmptyString else String c EmptyString
      | t => String c t
      end
  | EmptyString => EmptyString
  end.

(** [s.trim()] *)
Definition trim (s : string) : string := trimEnd (trimStart s).

(** [s.split('@')[0]]: the code units before the first ['@'], the whole
    string when there is none. *)
Fixpoint split_at_0 (s : string) : string :=
  match s with
  | String c s' => if Ascii.eqb c "@"%char then EmptyString else String c (split_at_0 s')
  | EmptyString => EmptyString
  end.

(** [s.substring(0, 6)] *)
Definition substring_0_6 (s : string) : string := String.substring 0%nat 6%nat s.

(** Truthiness of a string value, and of a value that is a string or
    [null]/[undefined]. *)
Definition truthy (s : string) : bool := negb (String.eqb s "").

Definition truthy_opt (o : option string) : bool :=
  match o with
  | Some s => truthy s
  | None => false
  end.

(** ** Module scope

    The names the module binds from ['firebase/auth'] and
    ['firebase/firestore'] (lines 3 and 4).  A call through a name that
    is not in scope raises a [ReferenceError] before anything is sent. *)

Definition firebase_auth_imports : list string :=
  [ "getAuth"; "signInWithEmailAndPassword"; "createUserWithEmailAndPassword";
    "signOut"; "onAuthStateChanged" ].

Definition firebase_firestore_imports : list string :=
  [ "getFirestore"; "collection"; "addDoc"; "query"; "orderBy"; "onSnapshot";
    "serverTimestamp"; "doc"; "getDoc"; "setDoc"; "updateDoc"; "arrayUnion" ].

Definition scope := string → bool.

Definition module_scope : scope :=
  λ name, existsb (String.eqb name) (firebase_auth_imports ++ firebase_firestore_imports).

(** ** Runtime-injected configuration

    [__app_id] and [__initial_auth_token]; [None] is [undefined]. *)

Record config := {
  app_id : option string;
  initial_auth_token : option string;
}.

(** [typeof __app_id !== 'undefined' ? __app_id : 'default-app-id'] *)
Definition appId (cfg : config) : string :=
  match app_id cfg with
  | Some a => a
  | None => "default-app-id"
  end.

(** [typeof __initial_auth_token !== 'undefined' && __initial_auth_token] *)
Definition has_token (cfg : config) : bool := truthy_opt (initial_auth_token cfg).

(** ** Documents *)

(** The [User] object of the auth service. *)
Record User := {
  uid : string;
  email : option string;
}.

Global Instance User_eq_dec : EqDecision User.
Proof. solve_decision. Defined.

(** [serverTimestamp()]: a sentinel the server replaces by its clock. *)
Inductive sentinel := ServerTimestamp.

Record profile_data := {
  p_uid : string;
  p_email : option string;
  p_displayName : string;
  p_createdAt : sentinel;
}.

Record profile_doc := {
  pd_uid : string;
  pd_email : option string;
  pd_displayName : string;
  pd_createdAt : Z;
}.

Record chat_data := {
  c_name : string;
  c_participants : list (option string);
  c_createdAt : sentinel;
}.

(** A room document.  [participants] may be missing; line 225 guards
    for it. *)
Record chat_doc := {
  name : string;
  participants : option (list (option string));
  createdAt : Z;
  lastMessage : option string;
  lastMessageTime : option Z;
}.

Global Instance chat_doc_eq_dec : EqDecision chat_doc.
Proof. solve_decision. Defined.

Record chat_update := {
  u_lastMessage : string;
  u_lastMessageTime : sentinel;
}.

Record message_data := {
  m_text : string;
  m_senderId : string;
  m_senderEmail : string;
  m_createdAt : sentinel;
}.

Record message_doc := {
  text : string;
  senderId : string;
  senderEmail : string;
  msg_createdAt : Z;
}.

(** ** Effects *)

Inductive error :=
  | ReferenceError (name : string)
  | TypeError (what : string)
  | ServiceError (op : string).

Inductive request :=
  | SignInWithCustomToken (token : string)
  | SignInAnonymously
  | SignOut
  | GetDoc (path : string)
  | SetDoc (path : string) (d : profile_data)
  | AddChat (path : string) (d : chat_data)
  | AddMessage (path : string) (d : message_data)
  | UpdateChat (path : string) (id : string) (d : chat_update).

Inductive effect :=
  | Sent (r : request)
  | ConsoleLog (msg : string)
  | ConsoleError (msg : string) (e : error).

(** ** The backend

    The auth service and the document database as this client sees
    them: documents by path, collections as lists of (id, document) in
    insertion order, a clock for server timestamps, a counter for
    automatic ids.  [faults] says, for each coming request in turn,
    whether the service rejects it ([true]); past its end requests are
    served.  [trace] collects what was sent and what was logged. *)

Record world := {
  profiles : gmap string profile_doc;
  chats : gmap string (list (string * chat_doc));
  messages : gmap string (list (string * message_doc));
  clock : Z;
  next_id : nat;
  faults : list bool;
  trace : list effect;
}.

Definition auto_id (n : nat) : string := "doc" +:+ pretty n.

(** *** Paths

    [doc(db, path)] splits the path at ['/'], refuses a path with an
    empty segment inside (['//']), drops empty segments at the ends,
    and refuses a document reference whose number of segments is
    odd. *)

Fixpoint has_slash (s : string) : bool :=
  match s with
  | String c s' => Ascii.eqb c "/"%char || has_slash s'
  | EmptyString => false
  end.

(** [after_slash] says whether the previous code unit was a ['/']. *)
Fixpoint double_slash_from (after_slash : bool) (s : string) : bool :=
  match s with
  | String c s' =>
      if Ascii.eqb c "/"%char then after_slash || double_slash_from true s'
      else double_slash_from false s'
  | EmptyString => false
  end.

Definition has_double_slash (s : string) : bool := double_slash_from false s.

(** The number of non-empty segments; [in_segment] says whether a
    segment has been entered. *)
Fixpoint segments_from (in_segment : bool) (s : string) : nat :=
  match s with
  | String c s' =>
      if Ascii.eqb c "/"%char
      then ((if in_segment then 1 else 0) + segments_from false s')%nat
      else segments_from true s'
  | EmptyString => if in_segment then 1%nat else 0%nat
  end.

Definition segment_count (s : string) : nat := segments_from false s.

Definition valid_document_path (path : string) : bool :=
  negb (has_double_slash path) && Nat.even (segment_count path).

(** *** Queries

    A listener is registered for a query: a collection path and, for
    the messages of a room, [orderBy('createdAt')].  The server answers
    a query ordered by [createdAt] with the documents of the
    collection in ascending order of that field, and a query without
    order with the documents as stored. *)

Record query := {
  q_path : string;
  q_orderBy : option string;
}.

Global Instance query_eq_dec : EqDecision query.
Proof. solve_decision. Defined.

(** Ascending creation timestamp, the order of [orderBy('createdAt')]. *)
Definition by_createdAt (a b : string * message_doc) : Prop :=
  msg_createdAt a.2 ≤ msg_createdAt b.2.

Global Instance by_createdAt_dec : RelDecision by_createdAt.
Proof. intros a b. unfold by_createdAt. apply _. Defined.

Definition run_query (q : query) (w : world) : list (string * message_doc) :=
  let docs := messages w !!! q_path q in
  match q_orderBy q with
  | Some field =>
      if String.eqb field "createdAt" then merge_sort by_createdAt docs else docs
  | None => docs
  end.

(** ** The monad of handlers

    A handler runs over its component's state [Σ] and the backend.  A
    thrown error keeps the state reached so far: what was set, sent and
    logged before the throw stays. *)

Inductive result (A : Type) :=
  | Ok (a : A)
  | Throw (e : error).
Arguments Ok {A} a.
Arguments Throw {A} e.

Definition M (Σ A : Type) : Type := Σ * world → result A * (Σ * world).

Definition ret {Σ A} (a : A) : M Σ A := λ s, (Ok a, s).

Definition bind {Σ A B} (c : M Σ A) (k : A → M Σ B) : M Σ B :=
  λ s, match c s with
       | (Ok a, s') => k a s'
       | (Throw e, s') => (Throw e, s')
       end.

Definition throw {Σ A} (e : error) : M Σ A := λ s, (Throw e, s).

(** [try { c } catch (error) { h error }] *)
Definition try_catch {Σ A} (c : M Σ A) (h : error → M Σ A) : M Σ A :=
  λ s, match c s with
       | (Ok a, s') => (Ok a, s')
       | (Throw e, s') => h e s'
       end.

Global Instance handler_ret {Σ} : MRet (M Σ) := λ A, @ret Σ A.
Global Instance handler_bind {Σ} : MBind (M Σ) := λ A B k c, @bind Σ A B c k.

(** State of the component and of the backend. *)
Definition set_local {Σ} (f : Σ → Σ) : M Σ unit := λ '(σ, w), (Ok tt, (f σ, w)).

Definition on_world {Σ A} (f : world → result A * world) : M Σ A :=
  λ '(σ, w), let '(r, w') := f w in (r, (σ, w')).

Definition emit (e : effect) (w : world) : world :=
  {| profiles := profiles w; chats := chats w; messages := messages w;
     clock := clock w; next_id := next_id w; faults := faults w;
     trace := trace w ++ [e] |}.

Definition console_log {Σ} (msg : string) : M Σ unit :=
  on_world (λ w, (Ok tt, emit (ConsoleLog msg) w)).

Definition console_error {Σ} (msg : string) (e : error) : M Σ unit :=
  on_world (λ w, (Ok tt, emit (ConsoleError msg e) w)).

(** The next request is rejected, or served. *)
Definition rejected (w : world) : bool := hd false (faults w).

Definition consume (w : world) : world :=
  {| profiles := profiles w; chats := chats w; messages := messages w;
     clock := clock w; next_id := next_id w; faults := tl (faults w);
     trace := trace w |}.

(** A request goes out: it is recorded and uses up one entry of
    [faults].  The service then rejects it or applies [serve]. *)
Definition dispatch (r : request) (w : world) : world := consume (emit (Sent r) w).

Definition request_to {A} (op : string) (r : request)
    (serve : world → result A * world) (w : world) : result A * world :=
  if rejected w then (Throw (ServiceError op), dispatch r w) else serve (dispatch r w).

(** What the server does with a served write. *)
Definition store_profile (path : string) (d : profile_data) (w : world) : world :=
  {| profiles := <[path := {| pd_uid := p_uid d; pd_email := p_email d;
                              pd_displayName := p_displayName d;
                              pd_createdAt := clock w |}]> (profiles w);
     chats := chats w; messages := messages w;
     clock := clock w + 1; next_id := next_id w; faults := faults w;
     trace := trace w |}.

Definition store_chat (path : string) (d : chat_data) (w : world) : world :=
  {| profiles := profiles w;
     chats := <[path := chats w !!! path ++
                  [(auto_id (next_id w),
                    {| name := c_name d; participants := Some (c_participants d);
                       createdAt := clock w; lastMessage := None;
                       lastMessageTime := None |})]]> (chats w);
     messages := messages w;
     clock := clock w + 1; next_id := S (next_id w); faults := faults w;
     trace := trace w |}.

Definition store_message (path : string) (d : message_data) (w : world) : world :=
  {| profiles := profiles w; chats := chats w;
     messages := <[path := messages w !!! path ++
                     [(auto_id (next_id w),
                       {| text := m_text d; senderId := m_senderId d;
                          senderEmail := m_senderEmail d; msg_createdAt := clock w |})]]>
                   (messages w);
     clock := clock w + 1; next_id := S (next_id w); faults := faults w;
     trace := trace w |}.

(** [updateDoc] merges the given fields into the document and leaves
    the others as they are. *)
Definition merge_summary (d : chat_update) (now : Z) (c : chat_doc) : chat_doc :=
  {| name := name c; participants := participants c; createdAt := createdAt c;
     lastMessage := Some (u_lastMessage d); lastMessageTime := Some now |}.

Definition update_in (id : string) (f : chat_doc → chat_doc)
    (l : list (string * chat_doc)) : list (string * chat_doc) :=
  map (λ '(i, c), if String.eqb i id then (i, f c) else (i, c)) l.

Definition has_id (id : string) (l : list (string * chat_doc)) : bool :=
  existsb (λ '(i, _), String.eqb i id) l.

Definition store_summary (path id : string) (d : chat_update) (w : world) : world :=
  {| profiles := profiles w;
     chats := <[path := update_in id (merge_summary d (clock w)) (chats w !!! path)]> (chats w);
     messages := messages w;
     clock := clock w + 1; next_id := next_id w; faults := faults w;
     trace := trace w |}.

(** ** The client *)

Section Client.
Variable sc : scope.
Variable cfg : config.

(** A call through the identifier [fn]. *)
Definition sdk {Σ A} (fn : string) (c : M Σ A) : M Σ A :=
  if sc fn then c else throw (ReferenceError fn).

Definition signInWithCustomToken {Σ} (token : string) : M Σ unit :=
  sdk "signInWithCustomToken"
    (on_world (request_to "signInWithCustomToken" (SignInWithCustomToken token)
                 (λ w, (Ok tt, w)))).

Definition signInAnonymously {Σ} : M Σ unit :=
  sdk "signInAnonymously"
    (on_world (request_to "signInAnonymously" SignInAnonymously (λ w, (Ok tt, w)))).

Definition signOut {Σ} : M Σ unit :=
  sdk "signOut" (on_world (request_to "signOut" SignOut (λ w, (Ok tt, w)))).

(** [getDoc(ref)]; the result is the document, [None] when
    [snap.exists()] is false. *)
Definition getDoc {Σ} (path : string) : M Σ (option profile_doc) :=
  sdk "getDoc" (on_world (request_to "getDoc" (GetDoc path) (λ w, (Ok (profiles w !! path), w)))).

Definition setDoc {Σ} (path : string) (d : profile_data) : M Σ unit :=
  sdk "setDoc"
    (on_world (request_to "setDoc" (SetDoc path d) (λ w, (Ok tt, store_profile path d w)))).

Definition addDoc_chat {Σ} (path : string) (d : chat_data) : M Σ unit :=
  sdk "addDoc"
    (on_world (request_to "addDoc" (AddChat path d) (λ w, (Ok tt, store_chat path d w)))).

Definition addDoc_message {Σ} (path : string) (d : message_data) : M Σ unit :=
  sdk "addDoc"
    (on_world (request_to "addDoc" (AddMessage path d) (λ w, (Ok tt, store_message path d w)))).

(** [updateDoc] fails on a document that does not exist. *)
Definition updateDoc {Σ} (path id : string) (d : chat_update) : M Σ unit :=
  sdk "updateDoc"
    (on_world (request_to "updateDoc" (UpdateChat path id d)
                 (λ w, if has_id id (chats w !!! path)
                       then (Ok tt, store_summary path id d w)
                       else (Throw (ServiceError "not-found"), w)))).

(** [collection(db, path)] and [doc(db, path)] need the handle. *)
Definition with_db {Σ} (db : bool) (fn : string) : M Σ unit :=
  sdk fn (if db then ret tt else throw (TypeError fn)).

(** [doc(db, path)] for a document reference: the path is checked
    before anything is sent. *)
Definition doc_ref {Σ} (path : string) : M Σ unit :=
  sdk "doc" (if valid_document_path path then ret tt
             else throw (ServiceError "invalid-argument")).

Definition profile_path (u : User) : string :=
  "artifacts/" +:+ appId cfg +:+ "/users/" +:+ uid u +:+ "/profile/".

Definition chats_path : string :=
  "artifacts/" +:+ appId cfg +:+ "/public/data/chats".

Definition messages_path (chatId : string) : string :=
  "artifacts/" +:+ appId cfg +:+ "/public/data/chats/" +:+ chatId +:+ "/messages".

(** *** AuthProvider (lines 18-89) *)

Record auth_state := {
  currentUser : option User;
  userId : option string;
  loading : bool;
  dbInstance : bool;
}.

Definition AuthProvider_init : auth_state :=
  {| currentUser := None; userId := None; loading := true; dbInstance := false |}.

(** The effect body before the listener is registered (lines 27-28). *)
Definition AuthProvider_mount (σ : auth_state) : auth_state :=
  {| currentUser := currentUser σ; userId := userId σ; loading := loading σ;
     dbInstance := true |}.

Definition setCurrentUser (u : option User) : M auth_state unit :=
  set_local (λ σ, {| currentUser := u; userId := userId σ; loading := loading σ;
                     dbInstance := dbInstance σ |}).

Definition setUserId (i : option string) : M auth_state unit :=
  set_local (λ σ, {| currentUser := currentUser σ; userId := i; loading := loading σ;
                     dbInstance := dbInstance σ |}).

Definition setLoading (b : bool) : M auth_state unit :=
  set_local (λ σ, {| currentUser := currentUser σ; userId := userId σ; loading := b;
                     dbInstance := dbInstance σ |}).

(** [user.email ? user.email.split('@')[0] : `User-${user.uid.substring(0, 6)}`] *)
Definition displayName_of (u : User) : string :=
  match email u with
  | Some e => if truthy e then split_at_0 e else "User-" +:+ substring_0_6 (uid u)
  | None => "User-" +:+ substring_0_6 (uid u)
  end.

(** The callback given to [onAuthStateChanged] (lines 30-70). *)
Definition onAuthStateChanged_callback (user : option User) : M auth_state unit :=
  match user with
  | Some u =>
      setCurrentUser (Some u);;
      setUserId (Some (uid u));;
      (if has_token cfg then
         try_catch
           (signInWithCustomToken (default "" (initial_auth_token cfg));;
            console_log "Signed in with custom token.")
           (λ error,
             console_error "Error signing in with custom token:" error;;
             signInAnonymously;;
             console_log "Signed in anonymously as fallback.")
       else mret tt);;
      doc_ref (profile_path u);;
      userSnap ← getDoc (profile_path u);
      (if negb (bool_decide (is_Some userSnap)) then
         setDoc (profile_path u)
           {| p_uid := uid u; p_email := email u;
              p_displayName := displayName_of u;
              p_createdAt := ServerTimestamp |}
       else mret tt)
  | None =>
      setCurrentUser None;;
      setUserId None;;
      (if negb (has_token cfg) then
         try_catch
           (signInAnonymously;;
            console_log "Signed in anonymously.")
           (λ error, console_error "Error signing in anonymously:" error)
       else mret tt)
  end;;
  setLoading false.

(** *** App (lines 93-136) *)

Inductive View := login | chatList | chatRoom.

Record app_state := {
  view : View;
  selectedChatId : option string;
  selectedChatName : string;
}.

Definition App_init : app_state :=
  {| view := chatList; selectedChatId := None; selectedChatName := "" |}.

Definition setView (v : View) (σ : app_state) : app_state :=
  {| view := v; selectedChatId := selectedChatId σ;
     selectedChatName := selectedChatName σ |}.

(** The effect on [currentUser] (lines 99-105). *)
Definition App_effect (cu : option User) (σ : app_state) : app_state :=
  if bool_decide (cu = None) then setView login σ else setView chatList σ.

Definition handleSelectChat (chatId chatName : string) (σ : app_state) : app_state :=
  {| view := chatRoom; selectedChatId := Some chatId; selectedChatName := chatName |}.

Definition handleBackToChatList (σ : app_state) : app_state :=
  {| view := chatList; selectedChatId := None; selectedChatName := "" |}.

(** What [App] renders (lines 122-132). *)
Inductive screen :=
  | AuthScreen
  | ChatListScreen
  | ChatRoomScreen (chatId chatName : string).

Definition App_render (cu : option User) (σ : app_state) : option screen :=
  match view σ with
  | login => Some AuthScreen
  | chatList => if bool_decide (cu = None) then None else Some ChatListScreen
  | chatRoom =>
      if bool_decide (cu = None) then None
      else match selectedChatId σ with
           | Some id => if truthy id then Some (ChatRoomScreen id (selectedChatName σ)) else None
           | None => None
           end
  end.

(** *** ChatListScreen (lines 210-339) *)

(** [{ id: doc.id, ...doc.data() }] *)
Definition chat : Type := string * chat_doc.

Record list_state := {
  shown_chats : list chat;
  newChatName : string;
  showCreateChat : bool;
  chats_listener : option string;
}.

Definition ChatListScreen_init : list_state :=
  {| shown_chats := []; newChatName := ""; showCreateChat := false;
     chats_listener := None |}.

Definition setChats (l : list chat) (σ : list_state) : list_state :=
  {| shown_chats := l; newChatName := newChatName σ;
     showCreateChat := showCreateChat σ; chats_listener := chats_listener σ |}.

Definition setNewChatName (s : string) : M list_state unit :=
  set_local (λ σ, {| shown_chats := shown_chats σ; newChatName := s;
                     showCreateChat := showCreateChat σ;
                     chats_listener := chats_listener σ |}).

Definition setShowCreateChat (b : bool) : M list_state unit :=
  set_local (λ σ, {| shown_chats := shown_chats σ; newChatName := newChatName σ;
                     showCreateChat := b; chats_listener := chats_listener σ |}).

(** [a.includes(x)] on an array; on [undefined] the property access
    throws. *)
Definition includes (a : option (list (option string))) (x : option string) : result bool :=
  match a with
  | Some l => Ok (bool_decide (x ∈ l))
  | None => Throw (TypeError "includes")
  end.

(** [chat.participants && chat.participants.includes(userId)]: the
    right operand is evaluated only when the left one is truthy, and
    an array is truthy. *)
Definition is_participant (userId : option string) (c : chat) : result bool :=
  match participants c.2 with
  | Some l => includes (Some l) userId
  | None => Ok false
  end.

(** [Array.prototype.filter] with a predicate that may throw. *)
Fixpoint filter_js {A} (p : A → result bool) (l : list A) : result (list A) :=
  match l with
  | [] => Ok []
  | x :: l' =>
      match p x with
      | Ok b =>
          match filter_js p l' with
          | Ok r => Ok (if b then x :: r else r)
          | Throw e => Throw e
          end
      | Throw e => Throw e
      end
  end.

(** The snapshot callback (lines 222-227), for the listener that
    captured [userId]. *)
Definition chats_onSnapshot (userId : option string) (docs : list (string * chat_doc))
    (σ : list_state) : result list_state :=
  match filter_js (is_participant userId) (map (λ d, (d.1, d.2)) docs) with
  | Ok chatData => Ok (setChats chatData σ)
  | Throw e => Throw e
  end.

(** The effect of lines 217-232: the listener exists when [db] and
    [userId] are truthy, and captures [userId]. *)
Definition chats_subscription (ctx : auth_state) : option string :=
  if dbInstance ctx && truthy_opt (userId ctx) then userId ctx else None.

(** [handleCreateChat] (lines 234-248) *)
Definition handleCreateChat (ctx : auth_state) : M list_state unit :=
  λ s,
    let name := newChatName s.1 in
    (if negb (truthy (trim name)) then mret tt
     else
       try_catch
         (with_db (dbInstance ctx) "collection";;
          addDoc_chat chats_path
            {| c_name := trim name; c_participants := [userId ctx];
               c_createdAt := ServerTimestamp |};;
          setNewChatName "";;
          setShowCreateChat false)
         (λ error, console_error "Error creating chat:" error)) s.

(** [handleLogout] (lines 250-257) *)
Definition handleLogout : M list_state unit :=
  try_catch signOut (λ error, console_error "Error logging out:" error).

(** *** ChatRoomScreen (lines 341-459) *)

(** [{ id: doc.id, ...doc.data() }] *)
Definition message : Type := string * message_doc.

Record room_state := {
  shown_messages : list message;
  newMessage : string;
  messages_listener : option query;
}.

Definition ChatRoomScreen_init : room_state :=
  {| shown_messages := []; newMessage := ""; messages_listener := None |}.

Definition setMessages (l : list message) (σ : room_state) : room_state :=
  {| shown_messages := l; newMessage := newMessage σ;
     messages_listener := messages_listener σ |}.

Definition setNewMessage (s : string) : M room_state unit :=
  set_local (λ σ, {| shown_messages := shown_messages σ; newMessage := s;
                     messages_listener := messages_listener σ |}).

(** The snapshot callback (lines 355-358): the documents in the order
    the query delivers them. *)
Definition messages_onSnapshot (docs : list (string * message_doc)) (σ : room_state)
    : room_state :=
  setMessages (map (λ d, (d.1, d.2)) docs) σ.

(** [query(messagesCollectionRef, orderBy('createdAt'))] (lines 352-353) *)
Definition messages_query (chatId : string) : query :=
  {| q_path := messages_path chatId; q_orderBy := Some "createdAt" |}.

(** The effect of lines 348-363: a listener for the query on the
    room's messages, when [db] and [chatId] are truthy. *)
Definition messages_subscription (ctx : auth_state) (chatId : string) : option query :=
  if dbInstance ctx && truthy chatId then Some (messages_query chatId) else None.

(** [currentUser?.email || `User-${userId.substring(0, 6)}`] *)
Definition senderEmail_of (cu : option User) (userId : string) : string :=
  match cu with
  | Some u =>
      match email u with
      | Some e => if truthy e then e else "User-" +:+ substring_0_6 userId
      | None => "User-" +:+ substring_0_6 userId
      end
  | None => "User-" +:+ substring_0_6 userId
  end.

(** [handleSendMessage] (lines 370-394) *)
Definition handleSendMessage (ctx : auth_state) (chatId : string) : M room_state unit :=
  λ s,
    let draft := newMessage s.1 in
    match userId ctx with
    | Some userId =>
        (if negb (truthy (trim draft)) || negb (dbInstance ctx)
            || negb (truthy chatId) || negb (truthy userId)
         then mret tt
         else
           try_catch
             (with_db (dbInstance ctx) "collection";;
              addDoc_message (messages_path chatId)
                {| m_text := trim draft; m_senderId := userId;
                   m_senderEmail := senderEmail_of (currentUser ctx) userId;
                   m_createdAt := ServerTimestamp |};;
              with_db (dbInstance ctx) "doc";;
              updateDoc chats_path chatId
                {| u_lastMessage := trim draft; u_lastMessageTime := ServerTimestamp |};;
              setNewMessage "")
             (λ error, console_error "Error sending message:" error)) s
    | None => (Ok tt, s)
    end.

(** What the transcript shows for each message (lines 414-435), in
    the order of the state. *)
Record bubble := {
  key : string;
  own : bool;
  label : string;
  body : string;
}.

Definition render_message (userId : option string) (m : message) : bubble :=
  let mine := bool_decide (userId = Some (senderId m.2)) in
  {| key := m.1; own := mine;
     label := if mine then "You" else split_at_0 (senderEmail m.2);
     body := text m.2 |}.

Definition render_messages (userId : option string) (σ : room_state) : list bubble :=
  map (render_message userId) (shown_messages σ).

(** *** The mounted components

    [AuthProvider] always; [App] once [loading] is false; under [App]
    the one screen that [App_render] selects.  The transcript carries
    its [chatId] prop. *)

Record tree := {
  provider : auth_state;
  app : option app_state;
  directory : option list_state;
  transcript : option (string * room_state);
}.

Definition tree_init : tree :=
  {| provider := AuthProvider_mount AuthProvider_init; app := None;
     directory := None; transcript := None |}.

Definition with_provider (σ : auth_state) (t : tree) : tree :=
  {| provider := σ; app := app t; directory := directory t; transcript := transcript t |}.

Definition with_app (a : app_state) (t : tree) : tree :=
  {| provider := provider t; app := Some a; directory := directory t;
     transcript := transcript t |}.

Definition with_directory (σ : list_state) (t : tree) : tree :=
  {| provider := provider t; app := app t; directory := Some σ;
     transcript := transcript t |}.

Definition with_transcript (chatId : string) (σ : room_state) (t : tree) : tree :=
  {| provider := provider t; app := app t; directory := directory t;
     transcript := Some (chatId, σ) |}.

Definition listen_chats (l : option string) (σ : list_state) : list_state :=
  {| shown_chats := shown_chats σ; newChatName := newChatName σ;
     showCreateChat := showCreateChat σ; chats_listener := l |}.

Definition listen_messages (l : option query) (σ : room_state) : room_state :=
  {| shown_messages := shown_messages σ; newMessage := newMessage σ;
     messages_listener := l |}.

(** One render and commit: a screen that is no longer rendered is
    unmounted, and its cleanup releases its listener; a screen that
    is rendered is mounted if need be, and its effect registers the
    listener its dependencies ask for. *)
Definition commit (t : tree) : tree :=
  match app t with
  | None => {| provider := provider t; app := None; directory := None; transcript := None |}
  | Some a =>
      let ctx := provider t in
      match App_render (currentUser ctx) a with
      | Some ChatListScreen =>
          {| provider := ctx; app := Some a;
             directory := Some (listen_chats (chats_subscription ctx)
                                  (default ChatListScreen_init (directory t)));
             transcript := None |}
      | Some (ChatRoomScreen chatId _) =>
          {| provider := ctx; app := Some a; directory := None;
             transcript := Some (chatId,
                                 listen_messages (messages_subscription ctx chatId)
                                   (default ChatRoomScreen_init (snd <$> transcript t))) |}
      | _ => {| provider := ctx; app := Some a; directory := None; transcript := None |}
      end
  end.

(** The renders that follow a change of the provider's state, oldest
    first.  [prev] is [currentUser] before the change: the effect of
    [App] runs when [App] mounts and when [currentUser] changed. *)
Definition rerender_steps (prev : option User) (t : tree) : list tree :=
  if loading (provider t) then
    [ {| provider := provider t; app := None; directory := None; transcript := None |} ]
  else
    match app t with
    | None =>
        let t1 := commit (with_app App_init t) in
        [ t1; commit (with_app (App_effect (currentUser (provider t)) App_init) t1) ]
    | Some a =>
        let t1 := commit t in
        if bool_decide (currentUser (provider t) = prev) then [ t1 ]
        else [ t1; commit (with_app (App_effect (currentUser (provider t)) a) t1) ]
    end.

Definition rerender (prev : option User) (t : tree) : tree :=
  default t (last (rerender_steps prev t)).

(** *** Events *)

Inductive event :=
  | IdentityChanged (user : option User)
  | ChatsSnapshot (docs : list (string * chat_doc))
  | MessagesSnapshot (path : string) (docs : list (string * message_doc))
  | SelectChat (c : chat)
  | Back
  | TypeChatName (s : string)
  | ToggleCreateChat (b : bool)
  | CreateChat
  | Logout
  | TypeMessage (s : string)
  | SendMessage.

Definition step (e : event) (s : tree * world) : tree * world :=
  let '(t, w) := s in
  match e with
  | IdentityChanged user =>
      let '(_, (σ, w')) := onAuthStateChanged_callback user (provider t, w) in
      (rerender (currentUser (provider t)) (with_provider σ t), w')
  | ChatsSnapshot docs =>
      match directory t with
      | Some σ =>
          match chats_listener σ with
          | Some userId =>
              match chats_onSnapshot (Some userId) docs σ with
              | Ok σ' => (with_directory σ' t, w)
              | Throw _ => (t, w)
              end
          | None => (t, w)
          end
      | None => (t, w)
      end
  | MessagesSnapshot path docs =>
      match transcript t with
      | Some (chatId, σ) =>
          if bool_decide (q_path <$> messages_listener σ = Some path)
          then (with_transcript chatId (messages_onSnapshot docs σ) t, w)
          else (t, w)
      | None => (t, w)
      end
  | SelectChat c =>
      match directory t, app t with
      | Some σ, Some a =>
          if bool_decide (c ∈ shown_chats σ)
          then (commit (with_app (handleSelectChat c.1 (name c.2) a) t), w)
          else (t, w)
      | _, _ => (t, w)
      end
  | Back =>
      match transcript t, app t with
      | Some _, Some a => (commit (with_app (handleBackToChatList a) t), w)
      | _, _ => (t, w)
      end
  | TypeChatName s =>
      match directory t with
      | Some σ => (with_directory (setNewChatName s (σ, w)).2.1 t, w)
      | None => (t, w)
      end
  | ToggleCreateChat b =>
      match directory t with
      | Some σ => (with_directory (setShowCreateChat b (σ, w)).2.1 t, w)
      | None => (t, w)
      end
  | CreateChat =>
      match directory t with
      | Some σ =>
          let '(_, (σ', w')) := handleCreateChat (provider t) (σ, w) in
          (with_directory σ' t, w')
      | None => (t, w)
      end
  | Logout =>
      match directory t with
      | Some σ =>
          let '(_, (σ', w')) := handleLogout (σ, w) in
          (with_directory σ' t, w')
      | None => (t, w)
      end
  | TypeMessage s =>
      match transcript t with
      | Some (chatId, σ) => (with_transcript chatId (setNewMessage s (σ, w)).2.1 t, w)
      | None => (t, w)
      end
  | SendMessage =>
      match transcript t with
      | Some (chatId, σ) =>
          let '(_, (σ', w')) := handleSendMessage (provider t) chatId (σ, w) in
          (with_transcript chatId σ' t, w')
      | None => (t, w)
      end
  end.

Definition run (es : list event) (s : tree * world) : tree * world :=
  fold_left (λ s e, step e s) es s.
End Client.

(** The states the client can be in: those an event sequence leads to
    from the first mount. *)
Definition reachable (sc : scope) (cfg : config) (s : tree * world) : Prop :=
  ∃ (es : list event) (w0 : world), s = run sc cfg es (tree_init, w0).

(** ** AuthScreen (lines 138-208)

    The form has no backend state of its own: [handleAuth] makes one
    call to the auth service and sets the form from the answer.  The
    answer is an input here, and the outcome carries the call that was
    made and what was written to the console. *)

Record auth_form := {
  email_field : string;
  password_field : string;
  isRegistering : bool;
  error_text : string;
  message_text : string;
}.

Definition AuthScreen_init : auth_form :=
  {| email_field := ""; password_field := ""; isRegistering := false;
     error_text := ""; message_text := "" |}.

Definition setEmail (s : string) (σ : auth_form) : auth_form :=
  {| email_field := s; password_field := password_field σ;
     isRegistering := isRegistering σ; error_text := error_text σ;
     message_text := message_text σ |}.

Definition setPassword (s : string) (σ : auth_form) : auth_form :=
  {| email_field := email_field σ; password_field := s;
     isRegistering := isRegistering σ; error_text := error_text σ;
     message_text := message_text σ |}.

Definition setIsRegistering (b : bool) (σ : auth_form) : auth_form :=
  {| email_field := email_field σ; password_field := password_field σ;
     isRegistering := b; error_text := error_text σ;
     message_text := message_text σ |}.

Definition setError (s : string) (σ : auth_form) : auth_form :=
  {| email_field := email_field σ; password_field := password_field σ;
     isRegistering := isRegistering σ; error_text := s;
     message_text := message_text σ |}.

Definition setMessage (s : string) (σ : auth_form) : auth_form :=
  {| email_field := email_field σ; password_field := password_field σ;
     isRegistering := isRegistering σ; error_text := error_text σ;
     message_text := s |}.

(** The button of lines 200-205. *)
Definition toggle_intent (σ : auth_form) : auth_form :=
  setIsRegistering (negb (isRegistering σ)) σ.

Inductive auth_call :=
  | CreateUserWithEmailAndPassword (email password : string)
  | SignInWithEmailAndPassword (email password : string).

(** The error object of a rejected call: [err.code] and [err.message]. *)
Record auth_error := {
  err_code : string;
  err_message : string;
}.

Inductive auth_reply :=
  | Resolves
  | Rejects (err : auth_error).

Record auth_outcome := {
  form : auth_form;
  called : auth_call;
  console : list string;
}.

Definition operation_not_allowed_text : string :=
  "Email/Password authentication is not enabled. Please enable it in your Firebase project settings (Authentication -> Sign-in method).".

(** [handleAuth] (lines 146-167) *)
Definition handleAuth (reply : auth_reply) (σ : auth_form) : auth_outcome :=
  let σ0 := setMessage "" (setError "" σ) in
  let call :=
    if isRegistering σ
    then CreateUserWithEmailAndPassword (email_field σ) (password_field σ)
    else SignInWithEmailAndPassword (email_field σ) (password_field σ) in
  match reply with
  | Resolves =>
      {| form := setMessage (if isRegistering σ
                             then "Registration successful! You are now logged in."
                             else "Login successful!") σ0;
         called := call; console := [] |}
  | Rejects err =>
      {| form := setError (if String.eqb (err_code err) "auth/operation-not-allowed"
                           then operation_not_allowed_text
                           else err_message err) σ0;
         called := call; console := [err_message err] |}
  end.

(** ** Vocabulary of the statements *)

(** The requests of a trace, in the order they were sent. *)
Fixpoint sent_requests (tr : list effect) : list request :=
  match tr with
  | Sent r :: tr' => r :: sent_requests tr'
  | _ :: tr' => sent_requests tr'
  | [] => []
  end.

(** The errors a handler logged. *)
Fixpoint logged_errors (tr : list effect) : list error :=
  match tr with
  | ConsoleError _ e :: tr' => e :: logged_errors tr'
  | _ :: tr' => logged_errors tr'
  | [] => []
  end.

(** The provider's state once the callback has recorded [user]. *)
Definition recorded (user : option User) (ld : bool) (σ : auth_state) : auth_state :=
  {| currentUser := user; userId := uid <$> user; loading := ld;
     dbInstance := dbInstance σ |}.

(** The profile record the callback writes for [u] (lines 49-54). *)
Definition bootstrap_profile (u : User) : profile_data :=
  {| p_uid := uid u; p_email := email u; p_displayName := displayName_of u;
     p_createdAt := ServerTimestamp |}.

(** What every state between two events satisfies: without an identity
    the view is [login], and a mounted screen is the one of the view
    and has an identity. *)
Definition settled (t : tree) : Prop :=
  (∀ a, app t = Some a → currentUser (provider t) = None → view a = login)
  ∧ (is_Some (transcript t) →
     currentUser (provider t) ≠ None ∧ ∃ a, app t = Some a ∧ view a = chatRoom)
  ∧ (is_Some (directory t) →
     currentUser (provider t) ≠ None ∧ ∃ a, app t = Some a ∧ view a = chatList).

(** The guard of line 372 lets the action through. *)
Definition send_ready (ctx : auth_state) (chatId : string) (σ : room_state) : bool :=
  truthy (trim (newMessage σ)) && dbInstance ctx && truthy chatId
  && truthy_opt (userId ctx).

(** The [n]-th coming request is served. *)
Definition served (n : nat) (w : world) : bool := negb (nth n (faults w) false).

Definition room_exists (cfg : config) (chatId : string) (w : world) : bool :=
  has_id chatId (chats w !!! chats_path cfg).

(** Both writes of a send complete without error. *)
Definition both_writes_succeed (cfg : config) (chatId : string) (w : world) : bool :=
  served 0 w && served 1 w && room_exists cfg chatId w.

(** The message record a send inserts. *)
Definition message_of (ctx : auth_state) (σ : room_state) : message_data :=
  {| m_text := trim (newMessage σ); m_senderId := default "" (userId ctx);
     m_senderEmail := senderEmail_of (currentUser ctx) (default "" (userId ctx));
     m_createdAt := ServerTimestamp |}.

Definition summary_of (σ : room_state) : chat_update :=
  {| u_lastMessage := trim (newMessage σ); u_lastMessageTime := ServerTimestamp |}.

(** The transcript's state once [setNewMessage('')] has run. *)
Definition clear_draft (σ : room_state) : room_state :=
  {| shown_messages := shown_messages σ; newMessage := "";
     messages_listener := messages_listener σ |}.

(** The fields of a room that a send must leave alone. *)
Definition same_room_fields (c c' : string * chat_doc) : Prop :=
  c.1 = c'.1 ∧ name c.2 = name c'.2 ∧ participants c.2 = participants c'.2
  ∧ createdAt c.2 = createdAt c'.2.

(** A room document with its participant list replaced. *)
Definition with_participants (l : list (option string)) (c : chat_doc) : chat_doc :=
  {| name := name c; participants := Some l; createdAt := createdAt c;
     lastMessage := lastMessage c; lastMessageTime := lastMessageTime c |}.

(** [x] comes before [y] in [l]. *)
Definition before {A} (x y : A) (l : list A) : Prop :=
  ∃ l1 l2 l3, l = l1 ++ x :: l2 ++ y :: l3.

(** The world a send of [σ]'s draft leaves behind. *)
Definition after_send (cfg : config) (ctx : auth_state) (chatId : string)
    (σ : room_state) (w : world) : world :=
  (handleSendMessage module_scope cfg ctx chatId (σ, w)).2.2.

(** A string made of whitespace only (the empty string included). *)
Fixpoint whitespace_only (s : string) : bool :=
  match s with
  | String c s' => js_whitespace c && whitespace_only s'
  | EmptyString => true
  end.

Definition starts_with_whitespace (s : string) : bool :=
  match s with
  | String c _ => js_whitespace c
  | EmptyString => false
  end.

Fixpoint ends_with_whitespace (s : string) : bool :=
  match s with
  | String c EmptyString => js_whitespace c
  | String _ s' => ends_with_whitespace s'
  | EmptyString => false
  end.

(** The code unit ['@'] occurs in the string. *)
Fixpoint has_at (s : string) : bool :=
  match s with
  | String c s' => Ascii.eqb c "@"%char || has_at s'
  | EmptyString => false
  end.

(** The world a create-room action leaves behind. *)
Definition after_create (cfg : config) (ctx : auth_state) (σ : list_state) (w : world)
    : world :=
  (handleCreateChat module_scope cfg ctx (σ, w)).2.2.

(** Every room of [l] is still in [l'], at the same place, with its
    id, name, participants and creation timestamp. *)
Definition rooms_kept (l l' : list (string * chat_doc)) : Prop :=
  ∀ n c, l !! n = Some c → ∃ c', l' !! n = Some c' ∧ same_room_fields c c'.

(** Nothing stored in [w] is lost or rewritten in [w']: profiles and
    messages are kept as they are, rooms up to their summary. *)
Definition store_kept (w w' : world) : Prop :=
  (∀ p d, profiles w !! p = Some d → profiles w' !! p = Some d)
  ∧ (∀ p n m, (messages w !!! p) !! n = Some m → (messages w' !!! p) !! n = Some m)
  ∧ (∀ p, rooms_kept (chats w !!! p) (chats w' !!! p)).

(** Every room has a name and exactly one participant entry. *)
Definition single_participant_rooms (w : world) : Prop :=
  ∀ p c, c ∈ chats w !!! p → name c.2 ≠ "" ∧ ∃ u, participants c.2 = Some [u].

(** The listeners of the mounted screens are the ones their effects
    ask for under the provider's current state, and the transcript is
    the one of the selected room. *)
Definition wired (cfg : config) (t : tree) : Prop :=
  dbInstance (provider t) = true
  ∧ userId (provider t) = uid <$> currentUser (provider t)
  ∧ (∀ σ, directory t = Some σ → chats_listener σ = chats_subscription (provider t))
  ∧ (∀ chatId ρ, transcript t = Some (chatId, ρ) →
       truthy chatId = true
       ∧ messages_listener ρ = messages_subscription cfg (provider t) chatId
       ∧ ∃ a, app t = Some a ∧ selectedChatId a = Some chatId).

(** The snapshot the backend delivers to the transcript's listener:
    the current result of the listener's query. *)
Definition messages_delivery (s : tree * world) : option event :=
  match transcript s.1 with
  | Some (_, σ) =>
      match messages_listener σ with
      | Some q => Some (MessagesSnapshot (q_path q) (run_query q s.2))
      | None => None
      end
  | None => None
  end.

(** An event the backend can produce in [s]: a snapshot addressed to
    the transcript's listener carries the result of the listener's
    query on the messages stored at that time.  Any other event is
    left free. *)
Definition from_backend (e : event) (s : tree * world) : Prop :=
  match e with
  | MessagesSnapshot path docs =>
      match transcript s.1 with
      | Some (_, σ) =>
          match messages_listener σ with
          | Some q => q_path q = path → docs = run_query q s.2
          | None => True
          end
      | None => True
      end
  | _ => True
  end.

(** The states the client can be in when its snapshots come from the
    backend. *)
Inductive query_reachable (sc : scope) (cfg : config) : tree * world → Prop :=
  | at_first_mount w0 : query_reachable sc cfg (tree_init, w0)
  | after_event e s :
      query_reachable sc cfg s → from_backend e s →
      query_reachable sc cfg (step sc cfg e s).

(** * Properties *)

Lemma module_binds_firestore_calls :
  module_scope "collection" = true ∧ module_scope "doc" = true
  ∧ module_scope "addDoc" = true ∧ module_scope "updateDoc" = true
  ∧ module_scope "getDoc" = true ∧ module_scope "setDoc" = true
  ∧ module_scope "signOut" = true.
Proof. repeat split; reflexivity. Qed.

Lemma module_misses_sign_in :
  module_scope "signInAnonymously" = false
  ∧ module_scope "signInWithCustomToken" = false.
Proof. split; reflexivity. Qed.

Ltac unfold_handler :=
  unfold mbind, handler_bind, bind, mret, handler_ret, ret, try_catch, throw,
    set_local, on_world, console_error, console_log, with_db, sdk,
    request_to in *.

Ltac firestore_in_scope :=
  change (module_scope "collection") with true;
  change (module_scope "doc") with true;
  change (module_scope "addDoc") with true;
  change (module_scope "updateDoc") with true;
  change (module_scope "getDoc") with true;
  change (module_scope "setDoc") with true;
  change (module_scope "signOut") with true;
  change (module_scope "signInAnonymously") with false;
  change (module_scope "signInWithCustomToken") with false.

Lemma truthy_false s : truthy s = false ↔ s = "".
Proof. unfold truthy. rewrite negb_false_iff. apply String.eqb_eq. Qed.

Lemma truthy_true s : truthy s = true ↔ s ≠ "".
Proof. unfold truthy. rewrite negb_true_iff. apply String.eqb_neq. Qed.

Lemma send_ready_inv ctx chatId σ :
  send_ready ctx chatId σ = true →
  truthy (trim (newMessage σ)) = true ∧ dbInstance ctx = true ∧ truthy chatId = true
  ∧ ∃ u, userId ctx = Some u ∧ truthy u = true.
Proof.
  unfold send_ready, truthy_opt. rewrite !andb_true_iff.
  intros [[[? ?] ?] Hu]. destruct (userId ctx) as [u|]; [|done]. eauto 6.
Qed.

(** *** What a send does, case by case *)

Section Send.
Variables (cfg : config) (ctx : auth_state) (chatId : string) (σ : room_state).
Variable w : world.
Hypothesis ready : send_ready ctx chatId σ = true.

Let w1 := dispatch (AddMessage (messages_path cfg chatId) (message_of ctx σ)) w.
Let w2 := store_message (messages_path cfg chatId) (message_of ctx σ) w1.
Let w3 := dispatch (UpdateChat (chats_path cfg) chatId (summary_of σ)) w2.
Let failed (e : error) (v : world) : result unit * (room_state * world) :=
  (Ok (), (σ, emit (ConsoleError "Error sending message:" e) v)).

Lemma handleSendMessage_cases :
  handleSendMessage module_scope cfg ctx chatId (σ, w) =
    if negb (served 0 w) then failed (ServiceError "addDoc") w1
    else if negb (served 1 w) then failed (ServiceError "updateDoc") w3
    else if room_exists cfg chatId w
         then (Ok (), (clear_draft σ,
                       store_summary (chats_path cfg) chatId (summary_of σ) w3))
         else failed (ServiceError "not-found") w3.
Proof.
  destruct (send_ready_inv _ _ _ ready) as (Ht & Hdb & Hc & u & Hu & Hut).
  unfold handleSendMessage, failed, w3, w2, w1, message_of, summary_of,
    served, room_exists, addDoc_message, updateDoc, clear_draft.
  cbn [fst snd]. rewrite Hu, Ht, Hdb, Hc, Hut. cbn [negb orb default].
  unfold_handler. firestore_in_scope.
  unfold rejected, store_summary, store_message, dispatch, consume, emit. cbn.
  destruct (faults w) as [|[] [|[] fs]]; cbn; try reflexivity.
  all: destruct (has_id chatId (chats w !!! chats_path cfg)); reflexivity.
Qed.
End Send.

Lemma sent_requests_app tr tr' :
  sent_requests (tr ++ tr') = sent_requests tr ++ sent_requests tr'.
Proof.
  induction tr as [|[] tr IH]; cbn; [done|..]; by rewrite ?IH.
Qed.

Lemma logged_errors_app tr tr' :
  logged_errors (tr ++ tr') = logged_errors tr ++ logged_errors tr'.
Proof.
  induction tr as [|[] tr IH]; cbn; [done|..]; by rewrite ?IH.
Qed.

Lemma update_in_frame id f l :
  (∀ c, name (f c) = name c ∧ participants (f c) = participants c
        ∧ createdAt (f c) = createdAt c) →
  Forall2 same_room_fields l (update_in id f l).
Proof.
  intros Hf. induction l as [|[i c] l IH]; cbn; constructor; [|done].
  destruct (String.eqb i id); unfold same_room_fields; cbn; [|done].
  destruct (Hf c) as (-> & -> & ->). done.
Qed.

Lemma same_room_fields_refl l : Forall2 same_room_fields l l.
Proof. induction l; constructor; [by unfold same_room_fields|done]. Qed.

(** C5 — a send whose trimmed text is empty, or that lacks the
    database handle, the room id or the identity id, is a no-op: the
    handler returns with the transcript's state and the backend exactly
    as they were, so no message record is created, no room summary is
    updated and nothing is sent or logged. *)
Theorem C5_send_without_text_or_context_is_noop
    (cfg : config) (ctx : auth_state) (chatId : string) (σ : room_state) (w : world) :
  trim (newMessage σ) = "" ∨ dbInstance ctx = false ∨ chatId = ""
  ∨ userId ctx = None ∨ userId ctx = Some "" →
  handleSendMessage module_scope cfg ctx chatId (σ, w) = (Ok (), (σ, w)).
Proof.
  intros H. unfold handleSendMessage. cbn [fst].
  destruct (userId ctx) as [u|] eqn:Hu; [|done].
  destruct H as [H|[H|[H|[H|H]]]]; try done.
  - rewrite H. done.
  - rewrite H. by rewrite orb_true_r.
  - subst chatId. cbn. by rewrite !orb_true_r.
  - injection H as ->. cbn. by rewrite !orb_true_r.
Qed.

Lemma C5_witness :
  handleSendMessage module_scope {| app_id := None; initial_auth_token := None |}
    {| currentUser := Some {| uid := "u1"; email := None |}; userId := Some "u1";
       loading := false; dbInstance := true |}
    "room"
    ({| shown_messages := []; newMessage := "   "; messages_listener := None |},
     {| profiles := ∅; chats := ∅; messages := ∅; clock := 0; next_id := 0;
        faults := []; trace := [] |})
  = (Ok (),
     ({| shown_messages := []; newMessage := "   "; messages_listener := None |},
      {| profiles := ∅; chats := ∅; messages := ∅; clock := 0; next_id := 0;
         faults := []; trace := [] |})).
Proof.
  apply C5_send_without_text_or_context_is_noop. left. reflexivity.
Defined.

(** C9 — for a send that passes the guard, the draft is cleared if and
    only if both writes complete without error.  When they do, the only
    change to the transcript's state is the cleared draft and nothing
    is logged; when one of them fails, the state (and with it the typed
    text) is left as it was and the error is logged. *)
Theorem C9_draft_cleared_iff_both_writes_succeed
    (cfg : config) (ctx : auth_state) (chatId : string) (σ : room_state) (w : world) :
  send_ready ctx chatId σ = true →
  let '(_, (σ', w')) := handleSendMessage module_scope cfg ctx chatId (σ, w) in
  (newMessage σ' = "" ↔ both_writes_succeed cfg chatId w = true)
  ∧ (both_writes_succeed cfg chatId w = true →
     σ' = clear_draft σ ∧ logged_errors (trace w') = logged_errors (trace w))
  ∧ (both_writes_succeed cfg chatId w = false →
     σ' = σ ∧ ∃ e, logged_errors (trace w') = logged_errors (trace w) ++ [e]).
Proof.
  intros ready. rewrite (handleSendMessage_cases _ _ _ _ _ ready).
  assert (newMessage σ ≠ "") as Hdraft.
  { intros E. apply send_ready_inv in ready as (Ht & _). by rewrite E in Ht. }
  unfold both_writes_succeed.
  destruct (served 0 w), (served 1 w), (room_exists cfg chatId w); cbn.
  1: { repeat split; try done.
       by rewrite !logged_errors_app, !app_nil_r. }
  all: repeat split; try done.
  all: rewrite ?logged_errors_app; cbn; rewrite ?app_nil_r; eauto.
Qed.

Lemma C9_witness :
  let ctx := {| currentUser := Some {| uid := "u1"; email := None |};
                userId := Some "u1"; loading := false; dbInstance := true |} in
  let σ := {| shown_messages := []; newMessage := " hi "; messages_listener := None |} in
  let w := {| profiles := ∅; chats := ∅; messages := ∅; clock := 0; next_id := 0;
              faults := [false; true]; trace := [] |} in
  let cfg := {| app_id := None; initial_auth_token := None |} in
  let '(_, (σ', w')) := handleSendMessage module_scope cfg ctx "room" (σ, w) in
  (newMessage σ' = "" ↔ both_writes_succeed cfg "room" w = true)
  ∧ (both_writes_succeed cfg "room" w = true →
     σ' = clear_draft σ ∧ logged_errors (trace w') = logged_errors (trace w))
  ∧ (both_writes_succeed cfg "room" w = false →
     σ' = σ ∧ ∃ e, logged_errors (trace w') = logged_errors (trace w) ++ [e]).
Proof.
  intros ctx σ w cfg.
  apply (C9_draft_cleared_iff_both_writes_succeed cfg ctx "room" σ w).
  reflexivity.
Defined.

(** C4 — a send that passes the guard sends the insert of the message
    first: trimmed text, sender id, sender label (the email when there
    is a non-empty one, else ["User-"] and the first six code units of
    the id), timestamp left to the server.  Profiles are never
    touched, every room keeps its id, name, participants and creation
    timestamp, and rooms of other collections are untouched.

    When the insert completes, the update of the room with the two
    summary fields is sent second, and these are the only two
    requests; the message is stored with the server's clock as its
    timestamp.  If the update completes too, the room's summary is the
    trimmed text and the server's clock; if it fails, the rooms are
    exactly as before while the message stays stored.

    When the insert fails, it is the only request: the update is not
    sent, and neither the messages nor the rooms change. *)
Theorem C4_send_is_insert_then_summary_update
    (cfg : config) (ctx : auth_state) (chatId : string) (σ : room_state) (w : world) :
  send_ready ctx chatId σ = true →
  let w' := after_send cfg ctx chatId σ w in
  let path := messages_path cfg chatId in
  let sender := default "" (userId ctx) in
  let fallback := "User-" +:+ String.substring 0 6 sender in
  let who := match currentUser ctx with
             | Some u => match email u with
                         | Some e => if String.eqb e "" then fallback else e
                         | None => fallback
                         end
             | None => fallback
             end in
  let insert := AddMessage path
                  {| m_text := trim (newMessage σ); m_senderId := sender;
                     m_senderEmail := who; m_createdAt := ServerTimestamp |} in
  let update := UpdateChat (chats_path cfg) chatId
                  {| u_lastMessage := trim (newMessage σ);
                     u_lastMessageTime := ServerTimestamp |} in
  profiles w' = profiles w
  ∧ (∀ p, Forall2 same_room_fields (chats w !!! p) (chats w' !!! p))
  ∧ (∀ p, p ≠ chats_path cfg → chats w' !! p = chats w !! p)
  ∧ (served 0 w = true →
     sent_requests (trace w') = sent_requests (trace w) ++ [insert; update]
     ∧ messages w' =
         <[path := messages w !!! path ++
             [(auto_id (next_id w),
               {| text := trim (newMessage σ); senderId := sender;
                  senderEmail := who; msg_createdAt := clock w |})]]> (messages w)
     ∧ (both_writes_succeed cfg chatId w = true →
        chats w' !!! chats_path cfg =
          update_in chatId
            (λ c, {| name := name c; participants := participants c;
                     createdAt := createdAt c;
                     lastMessage := Some (trim (newMessage σ));
                     lastMessageTime := Some (clock w + 1) |})
            (chats w !!! chats_path cfg))
     ∧ (both_writes_succeed cfg chatId w = false → chats w' = chats w))
  ∧ (served 0 w = false →
     sent_requests (trace w') = sent_requests (trace w) ++ [insert]
     ∧ messages w' = messages w
     ∧ chats w' = chats w).
Proof.
  intros ready w' path sender fallback who insert update.
  assert (who = senderEmail_of (currentUser ctx) sender) as Hwho.
  { unfold who, senderEmail_of, truthy, fallback, substring_0_6.
    destruct (currentUser ctx) as [u|]; [|done].
    destruct (email u) as [e|]; [|done]. by destruct (String.eqb e ""). }
  subst w' path insert update. rewrite Hwho. clear Hwho who. subst sender.
  unfold after_send. rewrite (handleSendMessage_cases _ _ _ _ _ ready).
  unfold both_writes_succeed.
  destruct (served 0 w), (served 1 w), (room_exists cfg chatId w); cbn.
  1: { rewrite !sent_requests_app. cbn. rewrite <- app_assoc.
       split; [done|]. split; [|split; [|split; [|done]]].
       - intros p. destruct (decide (p = chats_path cfg)) as [->|Hp].
         + rewrite lookup_total_insert_eq. by apply update_in_frame.
         + rewrite lookup_total_insert_ne by done. apply same_room_fields_refl.
       - intros p Hp. by rewrite lookup_insert_ne.
       - intros _. split; [done|]. split; [done|]. split; [|done].
         intros _. by rewrite lookup_total_insert_eq. }
  all: rewrite !sent_requests_app; cbn; rewrite ?app_nil_r, <- ?app_assoc.
  all: split; [done|]; split; [intros; apply same_room_fields_refl|].
  all: split; [done|]; split; [try done|try done].
  all: intros _; repeat split; done.
Qed.

Lemma C4_witness :
  let cfg := {| app_id := None; initial_auth_token := None |} in
  let ctx := {| currentUser := Some {| uid := "u1"; email := Some "a@x.org" |};
                userId := Some "u1"; loading := false; dbInstance := true |} in
  let σ := {| shown_messages := []; newMessage := " hello "; messages_listener := None |} in
  let w := {| profiles := ∅;
              chats := {[ chats_path cfg :=
                            [("r1", {| name := "General"; participants := Some [Some "u1"];
                                       createdAt := 3; lastMessage := None;
                                       lastMessageTime := None |})] ]};
              messages := ∅; clock := 7; next_id := 4; faults := []; trace := [] |} in
  sent_requests (trace (after_send cfg ctx "r1" σ w)) =
    [ AddMessage (messages_path cfg "r1")
        {| m_text := "hello"; m_senderId := "u1"; m_senderEmail := "a@x.org";
           m_createdAt := ServerTimestamp |};
      UpdateChat (chats_path cfg) "r1"
        {| u_lastMessage := "hello"; u_lastMessageTime := ServerTimestamp |} ]
  ∧ chats (after_send cfg ctx "r1" σ w) !!! chats_path cfg =
      [("r1", {| name := "General"; participants := Some [Some "u1"]; createdAt := 3;
                 lastMessage := Some "hello"; lastMessageTime := Some 8 |})].
Proof.
  intros cfg ctx σ w.
  destruct (C4_send_is_insert_then_summary_update cfg ctx "r1" σ w)
    as (_ & _ & _ & Hserved & _); [reflexivity|].
  destruct Hserved as (Hsent & _ & Hboth & _); [reflexivity|].
  split; [exact Hsent|]. rewrite Hboth by reflexivity. reflexivity.
Defined.

(** The claim's two writes are not sent by every send that passes the
    guard: when the insert is rejected, it is the only request, and no
    message is stored. *)
Lemma C4_counterexample :
  let cfg := {| app_id := None; initial_auth_token := None |} in
  let ctx := {| currentUser := Some {| uid := "u1"; email := Some "a@x.org" |};
                userId := Some "u1"; loading := false; dbInstance := true |} in
  let σ := {| shown_messages := []; newMessage := " hello "; messages_listener := None |} in
  let w := {| profiles := ∅;
              chats := {[ chats_path cfg :=
                            [("r1", {| name := "General"; participants := Some [Some "u1"];
                                       createdAt := 3; lastMessage := None;
                                       lastMessageTime := None |})] ]};
              messages := ∅; clock := 7; next_id := 4; faults := [true]; trace := [] |} in
  send_ready ctx "r1" σ = true
  ∧ sent_requests (trace (after_send cfg ctx "r1" σ w)) =
      [ AddMessage (messages_path cfg "r1")
          {| m_text := "hello"; m_senderId := "u1"; m_senderEmail := "a@x.org";
             m_createdAt := ServerTimestamp |} ]
  ∧ messages (after_send cfg ctx "r1" σ w) = ∅
  ∧ chats (after_send cfg ctx "r1" σ w) = chats w.
Proof. intros cfg ctx σ w. by vm_compute. Qed.

(** *** Creating a room *)

Lemma handleCreateChat_empty cfg ctx σ w :
  truthy (trim (newChatName σ)) = false →
  handleCreateChat module_scope cfg ctx (σ, w) = (Ok (), (σ, w)).
Proof. intros H. unfold handleCreateChat. cbn [fst]. by rewrite H. Qed.

Lemma handleCreateChat_cases cfg ctx σ w :
  truthy (trim (newChatName σ)) = true →
  dbInstance ctx = true →
  let d := {| c_name := trim (newChatName σ); c_participants := [userId ctx];
              c_createdAt := ServerTimestamp |} in
  handleCreateChat module_scope cfg ctx (σ, w) =
    if served 0 w
    then (Ok (),
          ({| shown_chats := shown_chats σ; newChatName := ""; showCreateChat := false;
              chats_listener := chats_listener σ |},
           store_chat (chats_path cfg) d (dispatch (AddChat (chats_path cfg) d) w)))
    else (Ok (),
          (σ, emit (ConsoleError "Error creating chat:" (ServiceError "addDoc"))
                (dispatch (AddChat (chats_path cfg) d) w))).
Proof.
  intros Hn Hdb d. subst d. unfold handleCreateChat, addDoc_chat, setNewChatName,
    setShowCreateChat, served.
  cbn [fst]. rewrite Hn, Hdb. cbn [negb].
  unfold_handler. firestore_in_scope. unfold rejected. cbn.
  destruct (faults w) as [|[] fs]; reflexivity.
Qed.

(** C6 — creating a room with a name that trims to nothing changes
    nothing and sends nothing.  Otherwise one insert is sent, with the
    trimmed name, the current identity id as the only participant and
    the timestamp left to the server; when it is served, the room
    collection gains exactly that room, stamped with the server's
    clock and without a summary, and the form is reset; when it is
    rejected, no room is added. *)
Theorem C6_create_room
    (cfg : config) (ctx : auth_state) (σ : list_state) (w : world) :
  let '(_, (σ', w')) := handleCreateChat module_scope cfg ctx (σ, w) in
  (trim (newChatName σ) = "" → σ' = σ ∧ w' = w)
  ∧ (trim (newChatName σ) ≠ "" → dbInstance ctx = true →
     sent_requests (trace w') =
       sent_requests (trace w) ++
         [ AddChat (chats_path cfg)
             {| c_name := trim (newChatName σ); c_participants := [userId ctx];
                c_createdAt := ServerTimestamp |} ]
     ∧ (served 0 w = true →
        chats w' =
          <[chats_path cfg :=
              chats w !!! chats_path cfg ++
                [(auto_id (next_id w),
                  {| name := trim (newChatName σ);
                     participants := Some [userId ctx];
                     createdAt := clock w;
                     lastMessage := None; lastMessageTime := None |})]]> (chats w)
        ∧ newChatName σ' = "" ∧ showCreateChat σ' = false)
     ∧ (served 0 w = false → chats w' = chats w ∧ σ' = σ)).
Proof.
  destruct (truthy (trim (newChatName σ))) eqn:Hn.
  - destruct (dbInstance ctx) eqn:Hdb.
    + rewrite (handleCreateChat_cases _ _ _ _ Hn Hdb).
      apply truthy_true in Hn.
      destruct (served 0 w); cbn; (split; [done|]); intros _ _;
        rewrite !sent_requests_app; cbn; rewrite ?app_nil_r; done.
    + apply truthy_true in Hn.
      destruct (handleCreateChat module_scope cfg ctx (σ, w)) as [? [? ?]]. done.
  - rewrite (handleCreateChat_empty _ _ _ _ Hn). apply truthy_false in Hn.
    split; done.
Qed.

Lemma C6_witness :
  let cfg := {| app_id := Some "demo"; initial_auth_token := None |} in
  let ctx := {| currentUser := Some {| uid := "u1"; email := None |};
                userId := Some "u1"; loading := false; dbInstance := true |} in
  let w := {| profiles := ∅; chats := ∅; messages := ∅; clock := 5; next_id := 0;
              faults := []; trace := [] |} in
  let σ := {| shown_chats := []; newChatName := "  General"; showCreateChat := true;
              chats_listener := Some "u1" |} in
  let blank := {| shown_chats := []; newChatName := "  "; showCreateChat := true;
                  chats_listener := Some "u1" |} in
  chats (handleCreateChat module_scope cfg ctx (σ, w)).2.2 !!! chats_path cfg =
    [("doc0", {| name := "General"; participants := Some [Some "u1"]; createdAt := 5;
                 lastMessage := None; lastMessageTime := None |})]
  ∧ (handleCreateChat module_scope cfg ctx (blank, w)).2 = (blank, w).
Proof.
  intros cfg ctx w σ blank. split.
  - pose proof (C6_create_room cfg ctx σ w) as H.
    destruct (handleCreateChat module_scope cfg ctx (σ, w)) as [r [σ' w']].
    destruct H as [_ H]. destruct H as (_ & H & _); [done | reflexivity |].
    cbn [snd]. destruct H as [-> _]; [reflexivity|].
    rewrite lookup_total_insert_eq. reflexivity.
  - pose proof (C6_create_room cfg ctx blank w) as H.
    destruct (handleCreateChat module_scope cfg ctx (blank, w)) as [r [σ' w']].
    destruct H as [H _]. cbn [snd]. destruct H as [-> ->]; [reflexivity|]. reflexivity.
Defined.

(** *** The room directory's filter *)

(** The membership test as a plain boolean. *)
Lemma is_participant_total userId c :
  is_participant userId c =
    Ok (match participants c.2 with
        | Some l => bool_decide (userId ∈ l)
        | None => false
        end).
Proof. unfold is_participant, includes. by destruct (participants c.2). Qed.

Lemma filter_js_total {A} (p : A → result bool) (f : A → bool) l :
  (∀ x, p x = Ok (f x)) → filter_js p l = Ok (List.filter f l).
Proof.
  intros Hp. induction l as [|x l IH]; cbn; [done|].
  rewrite Hp, IH. by destruct (f x).
Qed.

Lemma docs_with_id {A} (docs : list (string * A)) : map (λ d, (d.1, d.2)) docs = docs.
Proof. induction docs as [|[i d] docs IH]; cbn; [done|]. by rewrite IH. Qed.

Lemma chats_onSnapshot_filter userId docs σ :
  chats_onSnapshot userId docs σ =
    Ok (setChats
          (List.filter (λ c, match participants c.2 with
                             | Some l => bool_decide (userId ∈ l)
                             | None => false
                             end) docs) σ).
Proof.
  unfold chats_onSnapshot. rewrite docs_with_id.
  by rewrite (filter_js_total _ _ _ (is_participant_total userId)).
Qed.

(** C2 — for every snapshot and every identity id, the callback shows
    exactly the rooms of the snapshot whose participant list contains
    the id; the test does not depend on the order of that list. *)
Theorem C2_room_visible_iff_participant
    (userId : option string) (docs : list (string * chat_doc)) (σ : list_state) :
  ∃ σ', chats_onSnapshot userId docs σ = Ok σ'
    ∧ (∀ c, c ∈ shown_chats σ' ↔
            c ∈ docs ∧ ∃ l, participants c.2 = Some l ∧ userId ∈ l)
    ∧ (∀ i c l l', l ≡ₚ l' →
         is_participant userId (i, with_participants l c)
         = is_participant userId (i, with_participants l' c)).
Proof.
  eexists. split; [apply chats_onSnapshot_filter|]. split.
  - intros c. cbn. rewrite !list_elem_of_In, filter_In.
    split; intros [Hin H]; (split; [done|]).
    + destruct (participants c.2) as [l|]; [|done].
      exists l. split; [done|]. by apply bool_decide_eq_true in H.
    + destruct H as (l & -> & Hl). by apply bool_decide_eq_true.
  - intros i c l l' Hperm. rewrite !is_participant_total. cbn. f_equal.
    apply bool_decide_ext. by rewrite Hperm.
Qed.

Lemma C2_witness :
  is_participant (Some "u1")
    ("r1", with_participants [Some "u2"; Some "u1"]
             {| name := "General"; participants := None; createdAt := 0;
                lastMessage := None; lastMessageTime := None |})
  = is_participant (Some "u1")
      ("r1", with_participants [Some "u1"; Some "u2"]
               {| name := "General"; participants := None; createdAt := 0;
                  lastMessage := None; lastMessageTime := None |}).
Proof.
  destruct (C2_room_visible_iff_participant (Some "u1") [] ChatListScreen_init)
    as (_ & _ & _ & H).
  apply H. apply perm_swap.
Defined.

(** C10 — the callback never fails, whatever the snapshot holds, and a
    room without a [participants] field is not shown.  The guard is
    what makes it so: the membership test alone throws on such a
    room. *)
Theorem C10_filter_total_and_excludes_rooms_without_participants
    (userId : option string) (docs : list (string * chat_doc)) (σ : list_state) :
  ∃ σ', chats_onSnapshot userId docs σ = Ok σ'
    ∧ (∀ i c, participants c = None → (i, c) ∉ shown_chats σ')
    ∧ (∀ c, participants c = None →
         includes (participants c) userId = Throw (TypeError "includes")).
Proof.
  eexists. split; [apply chats_onSnapshot_filter|]. split.
  - intros i c Hnone. cbn. rewrite list_elem_of_In, filter_In. cbn.
    rewrite Hnone. by intros [_ ?].
  - intros c ->. reflexivity.
Qed.

Lemma C10_witness :
  let lost := {| name := "Lost"; participants := None; createdAt := 1;
                 lastMessage := None; lastMessageTime := None |} in
  let mine := {| name := "Mine"; participants := Some [Some "u1"]; createdAt := 2;
                 lastMessage := None; lastMessageTime := None |} in
  ∃ σ', chats_onSnapshot (Some "u1") [("r1", lost); ("r2", mine)] ChatListScreen_init = Ok σ'
        ∧ ("r1", lost) ∉ shown_chats σ'.
Proof.
  intros lost mine.
  destruct (C10_filter_total_and_excludes_rooms_without_participants
              (Some "u1") [("r1", lost); ("r2", mine)] ChatListScreen_init)
    as (σ' & Hrun & Hout & _).
  exists σ'. split; [exact Hrun|]. apply Hout. reflexivity.
Defined.

(** *** The transcript's order *)

Global Instance by_createdAt_transitive : Transitive by_createdAt.
Proof. unfold by_createdAt. intros a b c ? ?. lia. Qed.

(** In a list in ascending order, an earlier timestamp stands first. *)
Lemma earlier_stands_before (x y : string * message_doc) l :
  Sorted by_createdAt l → x ∈ l → y ∈ l →
  msg_createdAt x.2 < msg_createdAt y.2 → before x y l.
Proof.
  intros Hs Hx Hy Hlt. apply Sorted_StronglySorted in Hs; [|apply _].
  apply list_elem_of_split in Hx as (l1 & r & ->).
  apply elem_of_app in Hy as [Hy|Hy].
  - pose proof (StronglySorted_app_1_elem_of _ l1 (x :: r) y x Hs Hy) as H.
    unfold by_createdAt in H. specialize (H ltac:(left)). lia.
  - apply elem_of_cons in Hy as [->|Hy]; [lia|].
    apply list_elem_of_split in Hy as (l2 & l3 & ->).
    by exists l1, l2, l3.
Qed.

(** The message a served insert stores, and the server's clock. *)
Lemma after_send_stored cfg ctx chatId σ w :
  send_ready ctx chatId σ = true →
  faults w = [] →
  let w' := after_send cfg ctx chatId σ w in
  messages w' =
    <[messages_path cfg chatId :=
        messages w !!! messages_path cfg chatId ++
          [(auto_id (next_id w),
            {| text := trim (newMessage σ);
               senderId := default "" (userId ctx);
               senderEmail := senderEmail_of (currentUser ctx) (default "" (userId ctx));
               msg_createdAt := clock w |})]]> (messages w)
  ∧ clock w < clock w' ∧ faults w' = [].
Proof.
  intros ready Hf w'. subst w'. unfold after_send.
  rewrite (handleSendMessage_cases _ _ _ _ _ ready).
  unfold served. rewrite Hf. cbn.
  destruct (room_exists cfg chatId w); cbn; rewrite Hf; repeat split; try done; lia.
Qed.

(** *** The session manager *)

Section Session.
Variables (cfg : config) (σ : auth_state) (w : world).

(** No identity, no token: the anonymous sign-in is attempted
    through a name the module does not bind. *)
Lemma callback_absent_without_token :
  has_token cfg = false →
  onAuthStateChanged_callback module_scope cfg None (σ, w) =
    (Ok (), (recorded None false σ,
             emit (ConsoleError "Error signing in anonymously:"
                     (ReferenceError "signInAnonymously")) w)).
Proof.
  intros Ht. unfold onAuthStateChanged_callback, signInAnonymously, setCurrentUser,
    setUserId, setLoading. rewrite Ht. cbn [negb].
  unfold_handler. firestore_in_scope. reflexivity.
Qed.

Lemma callback_absent_with_token :
  has_token cfg = true →
  onAuthStateChanged_callback module_scope cfg None (σ, w) =
    (Ok (), (recorded None false σ, w)).
Proof.
  intros Ht. unfold onAuthStateChanged_callback, setCurrentUser, setUserId, setLoading.
  rewrite Ht. cbn [negb]. unfold_handler. reflexivity.
Qed.

(** An identity and a token: both sign-in calls go through names the
    module does not bind; the second error leaves the callback. *)
Lemma callback_present_with_token u :
  has_token cfg = true →
  onAuthStateChanged_callback module_scope cfg (Some u) (σ, w) =
    (Throw (ReferenceError "signInAnonymously"),
     (recorded (Some u) (loading σ) σ,
      emit (ConsoleError "Error signing in with custom token:"
              (ReferenceError "signInWithCustomToken")) w)).
Proof.
  intros Ht. unfold onAuthStateChanged_callback, signInAnonymously,
    signInWithCustomToken, setCurrentUser, setUserId, setLoading. rewrite Ht.
  unfold_handler. firestore_in_scope. reflexivity.
Qed.

(** An identity and no token: the reference to the profile is built
    first; when its path is refused the error leaves the callback,
    otherwise the profile is read, and written when the read finds
    none. *)
Lemma callback_present_without_token u :
  has_token cfg = false →
  let p := profile_path cfg u in
  let w1 := dispatch (GetDoc p) w in
  let w2 := dispatch (SetDoc p (bootstrap_profile u)) w1 in
  onAuthStateChanged_callback module_scope cfg (Some u) (σ, w) =
    if negb (valid_document_path p)
    then (Throw (ServiceError "invalid-argument"), (recorded (Some u) (loading σ) σ, w))
    else if negb (served 0 w)
    then (Throw (ServiceError "getDoc"), (recorded (Some u) (loading σ) σ, w1))
    else match profiles w !! p with
         | Some _ => (Ok (), (recorded (Some u) false σ, w1))
         | None =>
             if negb (served 1 w)
             then (Throw (ServiceError "setDoc"), (recorded (Some u) (loading σ) σ, w2))
             else (Ok (), (recorded (Some u) false σ,
                           store_profile p (bootstrap_profile u) w2))
         end.
Proof.
  intros Ht p w1 w2. subst w2 w1 p.
  unfold onAuthStateChanged_callback, doc_ref, getDoc, setDoc, setCurrentUser, setUserId,
    setLoading, bootstrap_profile, served. rewrite Ht.
  unfold_handler. firestore_in_scope.
  unfold rejected, store_profile, dispatch, consume, emit, recorded. cbn.
  destruct (valid_document_path (profile_path cfg u)); cbn; [|reflexivity].
  destruct (faults w) as [|[] [|[] fs]]; cbn; try reflexivity.
  all: destruct (profiles w !! profile_path cfg u); reflexivity.
Qed.
End Session.

(** Whatever the configuration and the outcome, the callback records
    the identity it was given, and an absence is always processed to
    the end. *)
Lemma callback_records cfg user σ w :
  let '(r, (σ', _)) := onAuthStateChanged_callback module_scope cfg user (σ, w) in
  currentUser σ' = user ∧ userId σ' = uid <$> user ∧ dbInstance σ' = dbInstance σ
  ∧ (r = Ok () → loading σ' = false)
  ∧ (user = None → r = Ok ()).
Proof.
  destruct (has_token cfg) eqn:Ht, user as [u|].
  - by rewrite callback_present_with_token.
  - by rewrite callback_absent_with_token.
  - rewrite callback_present_without_token by done.
    destruct (valid_document_path (profile_path cfg u)); cbn; [|done].
    destruct (served 0 w); cbn; [|done].
    destruct (profiles w !! profile_path cfg u); [done|].
    by destruct (served 1 w).
  - by rewrite callback_absent_without_token.
Qed.

(** Lines 47-55, for a reference that [doc] accepts: with no token
    configured and both requests served, a presence event leaves a
    profile for the identity, labelled as [displayName_of] says and
    stamped by the server. *)
Lemma profile_bootstrap_creates cfg u σ w :
  has_token cfg = false →
  valid_document_path (profile_path cfg u) = true →
  served 0 w = true → served 1 w = true →
  profiles w !! profile_path cfg u = None →
  let '(r, (σ', w')) := onAuthStateChanged_callback module_scope cfg (Some u) (σ, w) in
  r = Ok ()
  ∧ profiles w' !! profile_path cfg u =
      Some {| pd_uid := uid u; pd_email := email u;
              pd_displayName := displayName_of u; pd_createdAt := clock w |}
  ∧ loading σ' = false.
Proof.
  intros Ht Hv H0 H1 Hnone. rewrite callback_present_without_token by done.
  rewrite Hv, H0, H1, Hnone. cbn. by rewrite lookup_insert_eq.
Qed.

(** Lines 47-55, for a reference that [doc] accepts: an event for an
    identity that has a profile only reads. *)
Lemma profile_bootstrap_idempotent cfg u σ w :
  has_token cfg = false →
  valid_document_path (profile_path cfg u) = true →
  is_Some (profiles w !! profile_path cfg u) →
  let '(r, (σ', w')) := onAuthStateChanged_callback module_scope cfg (Some u) (σ, w) in
  profiles w' = profiles w
  ∧ sent_requests (trace w') = sent_requests (trace w) ++ [GetDoc (profile_path cfg u)].
Proof.
  intros Ht Hv [d Hd]. rewrite callback_present_without_token by done.
  rewrite Hv, Hd. destruct (served 0 w); cbn; by rewrite sent_requests_app.
Qed.

Lemma displayName_of_email u e :
  email u = Some e → e ≠ "" → displayName_of u = split_at_0 e.
Proof.
  intros He Hne. unfold displayName_of. rewrite He.
  apply truthy_true in Hne. by rewrite Hne.
Qed.

Lemma displayName_of_anonymous u :
  email u = None → displayName_of u = "User-" +:+ substring_0_6 (uid u).
Proof. intros He. unfold displayName_of. by rewrite He. Qed.

(** Under a scope that does bind [signInAnonymously], the absence
    event with no token sends the request. *)
Lemma anonymous_sign_in_sent_when_bound (sc : scope) cfg σ w :
  sc "signInAnonymously" = true →
  has_token cfg = false →
  let '(r, (_, w')) := onAuthStateChanged_callback sc cfg None (σ, w) in
  r = Ok ()
  ∧ sent_requests (trace w') = sent_requests (trace w) ++ [SignInAnonymously].
Proof.
  intros Hsc Ht. unfold onAuthStateChanged_callback, signInAnonymously, setCurrentUser,
    setUserId, setLoading. rewrite Ht. cbn [negb].
  unfold_handler. rewrite Hsc. unfold rejected, dispatch, consume, emit. cbn.
  destruct (faults w) as [|[] fs]; cbn; rewrite !sent_requests_app; cbn;
    by rewrite ?app_nil_r.
Qed.

(** C1 — with a sign-in token configured, a presence event does not
    reach the profile bootstrap: [signInWithCustomToken] and then the
    fallback [signInAnonymously] are names the module does not bind,
    the second [ReferenceError] leaves the callback, and neither the
    read nor the write of the profile is sent.  The profiles are as
    before, so an identity without a profile still has none. *)
Theorem C1_token_run_skips_profile_bootstrap
    (app : option string) (c : ascii) (rest : string) (u : User)
    (σ : auth_state) (w : world) :
  let cfg := {| app_id := app; initial_auth_token := Some (String c rest) |} in
  let '(r, (σ', w')) := onAuthStateChanged_callback module_scope cfg (Some u) (σ, w) in
  r = Throw (ReferenceError "signInAnonymously")
  ∧ profiles w' = profiles w
  ∧ sent_requests (trace w') = sent_requests (trace w)
  ∧ loading σ' = loading σ.
Proof.
  intros cfg. rewrite callback_present_with_token by done. cbn.
  by rewrite sent_requests_app, app_nil_r.
Qed.

(** C8 — with no identity and no token, the anonymous sign-in is not
    requested: [signInAnonymously] is a name the module does not bind,
    so the call raises a [ReferenceError] that is caught and logged;
    nothing is sent and no identity surfaces.  With a token, the
    fallback after the failed token sign-in is lost in the same way,
    and its error leaves the callback. *)
Theorem C8_anonymous_sign_in_is_not_requested
    (app : option string) (c : ascii) (rest : string) (u : User)
    (σ : auth_state) (w : world) :
  (let cfg := {| app_id := app; initial_auth_token := None |} in
   let '(r, (σ', w')) := onAuthStateChanged_callback module_scope cfg None (σ, w) in
   r = Ok () ∧ currentUser σ' = None ∧ loading σ' = false
   ∧ sent_requests (trace w') = sent_requests (trace w)
   ∧ logged_errors (trace w') =
       logged_errors (trace w) ++ [ReferenceError "signInAnonymously"])
  ∧ (let cfg := {| app_id := app; initial_auth_token := Some (String c rest) |} in
     let '(r, (_, w')) := onAuthStateChanged_callback module_scope cfg (Some u) (σ, w) in
     r = Throw (ReferenceError "signInAnonymously")
     ∧ sent_requests (trace w') = sent_requests (trace w)
     ∧ logged_errors (trace w') =
         logged_errors (trace w) ++ [ReferenceError "signInWithCustomToken"]).
Proof.
  split; intros cfg.
  - rewrite callback_absent_without_token by done. cbn.
    by rewrite sent_requests_app, logged_errors_app, app_nil_r.
  - rewrite callback_present_with_token by done. cbn.
    by rewrite sent_requests_app, logged_errors_app, app_nil_r.
Qed.

(** *** The view router *)

Lemma commit_settled cfg t :
  (∀ a, app t = Some a → currentUser (provider t) = None → view a = login) →
  settled (commit cfg t).
Proof.
  intros H1. unfold commit, settled, App_render.
  destruct (app t) as [a|] eqn:Ha; cbn.
  2: { split; [done|]. split; intros [? ?]; done. }
  destruct (view a) eqn:Hv; cbn; repeat case_bool_decide; cbn;
    try (destruct (selectedChatId a) as [id|]; [destruct (truthy id)|]; cbn).
  all: split; [intros a0 [= <-] Hn; first [done | by apply H1]|].
  all: split; intros Hs; first [by destruct Hs as [? [=]] | eauto].
Qed.

Lemma commit_keeps cfg t :
  provider (commit cfg t) = provider t ∧ app (commit cfg t) = app t.
Proof.
  unfold commit. destruct (app t) as [a|]; [|done].
  destruct (App_render (currentUser (provider t)) a) as [[]|]; done.
Qed.

(** A change of the provider's state leaves a settled tree. *)
Lemma rerender_settled cfg prev t :
  (currentUser (provider t) = prev →
   ∀ a, app t = Some a → currentUser (provider t) = None → view a = login) →
  settled (rerender cfg prev t).
Proof.
  intros H1. unfold rerender, rerender_steps.
  destruct (loading (provider t)); cbn -[commit].
  { split; [done|]. split; intros [? ?]; done. }
  destruct (app t) as [a|] eqn:Ha; cbn -[commit].
  - case_bool_decide as Hcu; cbn -[commit].
    + apply commit_settled. rewrite Ha. auto.
    + apply commit_settled. cbn -[commit]. destruct (commit_keeps cfg t) as [-> _].
      intros ? [= <-] Hn. unfold App_effect. by rewrite bool_decide_eq_true_2.
  - apply commit_settled. cbn -[commit].
    destruct (commit_keeps cfg (with_app App_init t)) as [-> _].
    intros ? [= <-] Hn. unfold App_effect. by rewrite bool_decide_eq_true_2.
Qed.

Ltac keep_settled H1 H2 H3 :=
  cbn; split; [exact H1|];
  split; [first [exact H2 | intros _; apply H2; eauto]
         |first [exact H3 | intros _; apply H3; eauto]].

Lemma step_settled cfg e t w :
  settled t → settled (step module_scope cfg e (t, w)).1.
Proof.
  intros Hs. pose proof Hs as (H1 & H2 & H3). destruct e; cbn [step].
  - pose proof (callback_records cfg user (provider t) w) as Hcb.
    destruct (onAuthStateChanged_callback _ _ _ _) as [r [σ' w']].
    destruct Hcb as (Hcu & _). cbn [fst]. apply rerender_settled. cbn.
    intros Hprev a Ha Hn. apply H1; [done|]. congruence.
  - destruct (directory t) as [σ|] eqn:Hd; [|exact Hs].
    destruct (chats_listener σ); [|exact Hs].
    destruct (chats_onSnapshot _ _ _); [|exact Hs].
    keep_settled H1 H2 H3.
  - destruct (transcript t) as [[chatId σ]|] eqn:Hd; [|exact Hs].
    case_bool_decide; [|exact Hs].
    keep_settled H1 H2 H3.
  - destruct (directory t) as [σ|] eqn:Hd; [|exact Hs].
    destruct (app t) as [a|] eqn:Ha; [|exact Hs].
    case_bool_decide; [|exact Hs]. cbn [fst].
    apply commit_settled. cbn. intros ? [= <-] Hn.
    destruct H3 as [Hcu _]; [done|]. done.
  - destruct (transcript t) as [[chatId σ]|] eqn:Hd; [|exact Hs].
    destruct (app t) as [a|] eqn:Ha; [|exact Hs]. cbn [fst].
    apply commit_settled. cbn. intros ? [= <-] Hn.
    destruct H2 as [Hcu _]; [done|]. done.
  - destruct (directory t) as [σ|] eqn:Hd; [|exact Hs].
    keep_settled H1 H2 H3.
  - destruct (directory t) as [σ|] eqn:Hd; [|exact Hs].
    keep_settled H1 H2 H3.
  - destruct (directory t) as [σ|] eqn:Hd; [|exact Hs].
    destruct (handleCreateChat _ _ _ _) as [r [σ' w']].
    keep_settled H1 H2 H3.
  - destruct (directory t) as [σ|] eqn:Hd; [|exact Hs].
    destruct (handleLogout _ _) as [r [σ' w']].
    keep_settled H1 H2 H3.
  - destruct (transcript t) as [[chatId σ]|] eqn:Hd; [|exact Hs].
    keep_settled H1 H2 H3.
  - destruct (transcript t) as [[chatId σ]|] eqn:Hd; [|exact Hs].
    destruct (handleSendMessage _ _ _ _ _) as [r [σ' w']].
    keep_settled H1 H2 H3.
Qed.

Lemma reachable_settled cfg s : reachable module_scope cfg s → settled s.1.
Proof.
  intros (es & w0 & ->). induction es as [|e es IH] using rev_ind.
  - cbn. split; [done|]. split; intros [? ?]; done.
  - unfold run in *. rewrite fold_left_app. cbn [fold_left].
    destruct (fold_left _ es _) as [t w]. by apply step_settled.
Qed.

(** The render of a tree without identity mounts no screen with a
    listener. *)
Lemma commit_absent cfg t a :
  app t = Some a → currentUser (provider t) = None →
  app (commit cfg t) = Some a ∧ transcript (commit cfg t) = None
  ∧ directory (commit cfg t) = None.
Proof.
  intros Ha Hn. unfold commit, App_render. rewrite Ha, Hn. cbn.
  by destruct (view a).
Qed.

Lemma rerender_absent cfg prev t :
  currentUser (provider t) = None → loading (provider t) = false →
  (∀ a, app t = Some a → prev = None → view a = login) →
  let t' := rerender cfg prev t in
  view <$> app t' = Some login ∧ transcript t' = None ∧ directory t' = None.
Proof.
  intros Hn Hl H1. unfold rerender, rerender_steps. rewrite Hl, Hn.
  destruct (app t) as [a|] eqn:Ha; cbn -[commit].
  - case_bool_decide as Hp; cbn -[commit].
    + destruct (commit_absent cfg t a Ha Hn) as (-> & -> & ->).
      cbn. by rewrite (H1 a).
    + edestruct (commit_absent cfg (with_app (setView login a) (commit cfg t)))
        as (-> & -> & ->); [done| cbn -[commit]; by destruct (commit_keeps cfg t) as [-> _] |done].
  - edestruct (commit_absent cfg
                 (with_app (setView login App_init) (commit cfg (with_app App_init t))))
      as (-> & -> & ->);
      [done| cbn -[commit]; by destruct (commit_keeps cfg (with_app App_init t)) as [-> _] |done].
Qed.

(** The renders of a sign-out seen from a tree whose view is
    [chatRoom]: none of them is the room list. *)
Lemma rerender_from_transcript cfg prev t a :
  app t = Some a → view a = chatRoom →
  currentUser (provider t) = None → loading (provider t) = false →
  Forall (λ t', view <$> app t' ≠ Some chatList ∧ directory t' = None)
    (rerender_steps cfg prev t).
Proof.
  intros Ha Hv Hn Hl. unfold rerender_steps. rewrite Hl, Ha, Hn.
  destruct (commit_absent cfg t a Ha Hn) as (Ha1 & Ht1 & Hd1).
  assert (view <$> app (commit cfg t) ≠ Some chatList ∧ directory (commit cfg t) = None).
  { rewrite Ha1, Hd1. cbn. by rewrite Hv. }
  case_bool_decide; repeat constructor; try tauto.
  edestruct (commit_absent cfg (with_app (App_effect None a) (commit cfg t))) as (-> & _);
    [done| cbn -[commit]; by destruct (commit_keeps cfg t) as [-> _] |done].
Qed.

(** C7 — the router starts on the room list; in every state the
    client can reach, an identity-absence event leaves the view on
    [login] with no screen mounted that holds a listener, so that
    message snapshots delivered afterwards change nothing.  From the
    very first state this is the correction of the initial view; from
    a state that shows a transcript, none of the renders on the way
    shows the room list. *)
Theorem C7_identity_absence_leads_to_login (cfg : config) (s : tree * world) :
  reachable module_scope cfg s →
  let s' := step module_scope cfg (IdentityChanged None) s in
  view App_init = chatList
  ∧ view <$> app s'.1 = Some login
  ∧ transcript s'.1 = None
  ∧ directory s'.1 = None
  ∧ (∀ path docs, step module_scope cfg (MessagesSnapshot path docs) s' = s')
  ∧ (is_Some (transcript s.1) →
     Forall (λ t', view <$> app t' ≠ Some chatList ∧ directory t' = None)
       (rerender_steps cfg (currentUser (provider s.1))
          (with_provider
             (onAuthStateChanged_callback module_scope cfg None (provider s.1, s.2)).2.1
             s.1))).
Proof.
  intros Hr s'. pose proof (reachable_settled cfg s Hr) as (H1 & H2 & _).
  destruct s as [t w]. subst s'. cbn [step fst snd] in *.
  pose proof (callback_records cfg None (provider t) w) as Hcb.
  destruct (onAuthStateChanged_callback _ _ _ _) as [r [σ' w']].
  destruct Hcb as (Hcu & _ & _ & Hld & Hok). specialize (Hld (Hok eq_refl)).
  cbn [fst snd].
  destruct (rerender_absent cfg (currentUser (provider t)) (with_provider σ' t))
    as (Hview & Htr & Hdir); [done|done|by cbn; auto|].
  split; [done|]. split; [done|]. split; [done|]. split; [done|]. split.
  - intros path docs. unfold step. by rewrite Htr.
  - intros Hm. destruct (H2 Hm) as (_ & a & Ha & Hv).
    by eapply rerender_from_transcript.
Qed.

Lemma C7_witness :
  let cfg := {| app_id := None; initial_auth_token := None |} in
  let w0 := {| profiles := ∅; chats := ∅; messages := ∅; clock := 0; next_id := 0;
               faults := []; trace := [] |} in
  let u := {| uid := "u1"; email := Some "a@x.org" |} in
  let room := ("r1", {| name := "General"; participants := Some [Some "u1"];
                        createdAt := 0; lastMessage := None; lastMessageTime := None |}) in
  let s := run module_scope cfg
             [IdentityChanged None; IdentityChanged (Some u); ChatsSnapshot [room];
              SelectChat room] (tree_init, w0) in
  is_Some (transcript s.1)
  ∧ view <$> app (step module_scope cfg (IdentityChanged None) s).1 = Some login
  ∧ transcript (step module_scope cfg (IdentityChanged None) s).1 = None.
Proof.
  intros cfg w0 u room s.
  destruct (C7_identity_absence_leads_to_login cfg s) as (_ & Hview & Htr & _).
  - by exists [IdentityChanged None; IdentityChanged (Some u); ChatsSnapshot [room];
               SelectChat room], w0.
  - split; [|by split]. vm_compute. eauto.
Defined.

(** *** A session, end to end

    After the first event has reported no identity, identity [u1]
    signs in, creates the room "General", sees it in the
    directory without a last message, sends "hello" and sees it in
    the transcript and then as the room's last message; identity [u2],
    who is not a participant, does not see the room. *)

Example session_of_two_identities :
  let cfg := {| app_id := None; initial_auth_token := None |} in
  let w0 := {| profiles := ∅; chats := ∅; messages := ∅; clock := 0; next_id := 0;
               faults := []; trace := [] |} in
  let u1 := {| uid := "u1"; email := Some "u1@example.org" |} in
  let u2 := {| uid := "u2"; email := None |} in
  let rooms (s : tree * world) := chats s.2 !!! chats_path cfg in
  let general last at_ :=
    ("doc0", {| name := "General"; participants := Some [Some "u1"]; createdAt := 0;
                lastMessage := last; lastMessageTime := at_ |}) in
  let s1 := run module_scope cfg
              [IdentityChanged None; IdentityChanged (Some u1); ToggleCreateChat true;
               TypeChatName "General"; CreateChat] (tree_init, w0) in
  let s2 := run module_scope cfg [ChatsSnapshot (rooms s1)] s1 in
  let s3 := run module_scope cfg
              [SelectChat (general None None); TypeMessage "hello"; SendMessage] s2 in
  let s4 := run module_scope cfg
              [MessagesSnapshot (messages_path cfg "doc0")
                 (run_query (messages_query cfg "doc0") s3.2)] s3 in
  let s5 := run module_scope cfg [Back; ChatsSnapshot (rooms s4)] s4 in
  let s6 := run module_scope cfg
              [IdentityChanged None; IdentityChanged (Some u2);
               ChatsSnapshot (rooms s5)] s5 in
  shown_chats <$> directory s2.1 = Some [general None None]
  ∧ (render_messages (Some "u1") ∘ snd <$> transcript s4.1
     = Some [{| key := "doc1"; own := true; label := "You"; body := "hello" |}])
  ∧ shown_chats <$> directory s5.1 = Some [general (Some "hello") (Some 2)]
  ∧ shown_chats <$> directory s6.1 = Some [].
Proof. vm_compute. done. Qed.

(** The first renders of [App] when the first event reports no
    identity: the room list as initial view, with nothing on screen,
    then the login view. *)
Example first_mount_without_identity :
  let cfg := {| app_id := None; initial_auth_token := None |} in
  map (λ t, (view <$> app t, directory t, transcript t))
    (rerender_steps cfg None (with_provider (recorded None false (provider tree_init)) tree_init))
  = [ (Some chatList, None, None); (Some login, None, None) ].
Proof. reflexivity. Qed.

(** * Further properties *)

(** ** Trimming *)

Lemma trimStart_empty s : trimStart s = "" ↔ whitespace_only s = true.
Proof.
  induction s as [|c s IH]; cbn; [done|].
  destruct (js_whitespace c); cbn; [done|]. split; discriminate.
Qed.

Lemma trimEnd_empty s : trimEnd s = "" ↔ whitespace_only s = true.
Proof.
  induction s as [|c s IH]; cbn; [done|].
  destruct (trimEnd s) eqn:Ht.
  - destruct (js_whitespace c); cbn; [tauto|]. split; discriminate.
  - split; [discriminate|]. rewrite andb_true_iff. intros [_ H].
    apply IH in H. discriminate.
Qed.

Lemma whitespace_only_trimStart s :
  whitespace_only (trimStart s) = whitespace_only s.
Proof.
  induction s as [|c s IH]; cbn; [done|].
  destruct (js_whitespace c) eqn:Hc; cbn; [done|]. by rewrite Hc.
Qed.

Lemma trim_empty s : trim s = "" ↔ whitespace_only s = true.
Proof. unfold trim. by rewrite trimEnd_empty, whitespace_only_trimStart. Qed.

Lemma trimStart_starts s : starts_with_whitespace (trimStart s) = false.
Proof.
  induction s as [|c s IH]; cbn; [done|].
  destruct (js_whitespace c) eqn:Hc; cbn; done.
Qed.

Lemma trimEnd_starts s :
  starts_with_whitespace s = false → starts_with_whitespace (trimEnd s) = false.
Proof.
  destruct s as [|c s]; cbn; [done|]. intros Hc.
  destruct (trimEnd s); [rewrite Hc|]; done.
Qed.

Lemma trimEnd_ends s : ends_with_whitespace (trimEnd s) = false.
Proof.
  induction s as [|c s IH]; cbn; [done|].
  destruct (trimEnd s) as [|d t] eqn:Ht.
  - destruct (js_whitespace c) eqn:Hc; cbn; done.
  - cbn in *. done.
Qed.

Lemma trimStart_fixed s : starts_with_whitespace s = false → trimStart s = s.
Proof. destruct s as [|c s]; cbn; [done|]. by intros ->. Qed.

Lemma trimEnd_fixed s : ends_with_whitespace s = false → trimEnd s = s.
Proof.
  induction s as [|c s IH]; [done|]. destruct s as [|d s'].
  - cbn. by intros ->.
  - intros H. change (ends_with_whitespace (String d s') = false) in H.
    change (trimEnd (String c (String d s')))
      with (match trimEnd (String d s') with
            | "" => if js_whitespace c then "" else String c ""
            | t => String c t
            end).
    by rewrite (IH H).
Qed.

Lemma trim_edges s :
  starts_with_whitespace (trim s) = false ∧ ends_with_whitespace (trim s) = false.
Proof.
  unfold trim. split; [|apply trimEnd_ends].
  apply trimEnd_starts, trimStart_starts.
Qed.

Lemma trim_idempotent s : trim (trim s) = trim s.
Proof.
  destruct (trim_edges s) as [Hs He]. unfold trim at 1.
  by rewrite (trimStart_fixed _ Hs), (trimEnd_fixed _ He).
Qed.

(** ** What each handler can do to the backend *)

Lemma send_not_ready cfg ctx chatId σ w :
  send_ready ctx chatId σ = false →
  handleSendMessage module_scope cfg ctx chatId (σ, w) = (Ok (), (σ, w)).
Proof.
  unfold send_ready, handleSendMessage, truthy_opt. cbn [fst].
  destruct (userId ctx) as [u|]; [|done].
  destruct (truthy (trim (newMessage σ))), (dbInstance ctx), (truthy chatId), (truthy u);
    cbn; done.
Qed.

Lemma handleCreateChat_without_db cfg ctx σ w :
  truthy (trim (newChatName σ)) = true →
  dbInstance ctx = false →
  handleCreateChat module_scope cfg ctx (σ, w) =
    (Ok (), (σ, emit (ConsoleError "Error creating chat:" (TypeError "collection")) w)).
Proof.
  intros Hn Hdb. unfold handleCreateChat. cbn [fst]. rewrite Hn, Hdb. cbn [negb].
  unfold_handler. firestore_in_scope. reflexivity.
Qed.

Lemma handleLogout_cases σ w :
  handleLogout module_scope (σ, w) =
    if served 0 w
    then (Ok (), (σ, dispatch SignOut w))
    else (Ok (), (σ, emit (ConsoleError "Error logging out:" (ServiceError "signOut"))
                       (dispatch SignOut w))).
Proof.
  unfold handleLogout, signOut, served. unfold_handler. firestore_in_scope.
  unfold rejected. cbn. destruct (faults w) as [|[] fs]; reflexivity.
Qed.

Lemma handleSendMessage_outcome cfg ctx chatId σ w :
  ∃ σ' w',
    handleSendMessage module_scope cfg ctx chatId (σ, w) = (Ok (), (σ', w'))
    ∧ messages_listener σ' = messages_listener σ
    ∧ shown_messages σ' = shown_messages σ
    ∧ profiles w' = profiles w
    ∧ (messages w' = messages w
       ∨ ∃ m, text m.2 = trim (newMessage σ) ∧ text m.2 ≠ ""
              ∧ messages w' =
                  <[messages_path cfg chatId :=
                      messages w !!! messages_path cfg chatId ++ [m]]> (messages w))
    ∧ (chats w' = chats w
       ∨ chats w' =
           <[chats_path cfg :=
               update_in chatId (merge_summary (summary_of σ) (clock w + 1))
                 (chats w !!! chats_path cfg)]> (chats w))
    ∧ (length (sent_requests (trace w')) ≤ length (sent_requests (trace w)) + 2)%nat.
Proof.
  destruct (send_ready ctx chatId σ) eqn:ready.
  - rewrite (handleSendMessage_cases _ _ _ _ _ ready).
    apply send_ready_inv in ready as (Ht & _). apply truthy_true in Ht.
    destruct (served 0 w), (served 1 w), (room_exists cfg chatId w); cbn;
      eexists _, _; (split; [reflexivity|]); cbn;
      rewrite ?sent_requests_app, ?length_app; cbn;
      repeat split; try done; try lia; eauto;
      (right; eexists; (split; [|split; [|reflexivity]]); cbn; done).
  - rewrite (send_not_ready _ _ _ _ _ ready). eexists _, _.
    repeat split; try done; eauto; lia.
Qed.

Lemma handleCreateChat_outcome cfg ctx σ w :
  ∃ σ' w',
    handleCreateChat module_scope cfg ctx (σ, w) = (Ok (), (σ', w'))
    ∧ chats_listener σ' = chats_listener σ
    ∧ shown_chats σ' = shown_chats σ
    ∧ profiles w' = profiles w
    ∧ messages w' = messages w
    ∧ (chats w' = chats w
       ∨ ∃ id at_,
           trim (newChatName σ) ≠ ""
           ∧ chats w' =
               <[chats_path cfg :=
                   chats w !!! chats_path cfg ++
                     [(id, {| name := trim (newChatName σ);
                              participants := Some [userId ctx];
                              createdAt := at_; lastMessage := None;
                              lastMessageTime := None |})]]> (chats w))
    ∧ (length (sent_requests (trace w')) ≤ length (sent_requests (trace w)) + 1)%nat.
Proof.
  destruct (truthy (trim (newChatName σ))) eqn:Hn.
  - destruct (dbInstance ctx) eqn:Hdb.
    + rewrite (handleCreateChat_cases _ _ _ _ Hn Hdb). apply truthy_true in Hn.
      destruct (served 0 w); cbn; eexists _, _; (split; [reflexivity|]); cbn;
        rewrite ?sent_requests_app, ?length_app; cbn;
        repeat split; try done; try lia; eauto.
    + rewrite (handleCreateChat_without_db _ _ _ _ Hn Hdb). eexists _, _.
      split; [reflexivity|]. cbn. rewrite sent_requests_app. cbn. rewrite app_nil_r.
      repeat split; try done; eauto; lia.
  - rewrite (handleCreateChat_empty _ _ _ _ Hn). eexists _, _.
    repeat split; try done; eauto; lia.
Qed.

Lemma callback_outcome cfg user σ w :
  ∃ r σ' w',
    onAuthStateChanged_callback module_scope cfg user (σ, w) = (r, (σ', w'))
    ∧ chats w' = chats w
    ∧ messages w' = messages w
    ∧ (profiles w' = profiles w
       ∨ ∃ u, user = Some u ∧ profiles w !! profile_path cfg u = None
              ∧ profiles w' =
                  <[profile_path cfg u :=
                      {| pd_uid := uid u; pd_email := email u;
                         pd_displayName := displayName_of u;
                         pd_createdAt := clock w |}]> (profiles w)).
Proof.
  destruct (has_token cfg) eqn:Ht, user as [u|].
  - rewrite callback_present_with_token by done. eexists _, _, _. eauto.
  - rewrite callback_absent_with_token by done. eexists _, _, _. eauto.
  - rewrite callback_present_without_token by done.
    destruct (valid_document_path (profile_path cfg u)); cbn; [|eexists _, _, _; eauto].
    destruct (served 0 w); cbn; [|eexists _, _, _; eauto].
    destruct (profiles w !! profile_path cfg u) eqn:Hp; [eexists _, _, _; eauto|].
    destruct (served 1 w); cbn; eexists _, _, _; (split; [reflexivity|]); cbn; eauto 8.
  - rewrite callback_absent_without_token by done. eexists _, _, _. eauto.
Qed.

(** ** Blank input *)

Lemma longer_differs {A} (l k : list A) : k ≠ [] → l ++ k ≠ l.
Proof.
  intros Hk E. apply (f_equal length) in E. rewrite length_app in E.
  destruct k; [done|]. cbn in E. lia.
Qed.

(** X1 — with the database handle, a room id and an identity id at
    hand, a send puts nothing on the wire exactly when the draft
    consists of whitespace only; and with the database handle, so does
    a create-room action exactly when the typed name does. *)
Theorem X1_only_blank_input_is_held_back
    (cfg : config) (ctx : auth_state) (chatId : string)
    (σ : room_state) (ρ : list_state) (w : world) :
  dbInstance ctx = true →
  truthy chatId = true →
  truthy_opt (userId ctx) = true →
  (sent_requests (trace (after_send cfg ctx chatId σ w)) = sent_requests (trace w)
   ↔ whitespace_only (newMessage σ) = true)
  ∧ (sent_requests (trace (after_create cfg ctx ρ w)) = sent_requests (trace w)
     ↔ whitespace_only (newChatName ρ) = true).
Proof.
  intros Hdb Hc Hu. split.
  - rewrite <- trim_empty, <- truthy_false. unfold after_send.
    destruct (truthy (trim (newMessage σ))) eqn:Ht.
    + assert (send_ready ctx chatId σ = true) as ready.
      { unfold send_ready. by rewrite Ht, Hdb, Hc, Hu. }
      rewrite (handleSendMessage_cases _ _ _ _ _ ready).
      split; [|done]. intros E. exfalso. revert E.
      destruct (served 0 w), (served 1 w), (room_exists cfg chatId w); cbn;
        rewrite !sent_requests_app; cbn; rewrite ?app_nil_r, <- ?app_assoc;
        by apply longer_differs.
    + rewrite send_not_ready; [done|]. unfold send_ready. by rewrite Ht.
  - rewrite <- trim_empty, <- truthy_false. unfold after_create.
    destruct (truthy (trim (newChatName ρ))) eqn:Ht.
    + rewrite (handleCreateChat_cases _ _ _ _ Ht Hdb).
      split; [|done]. intros E. exfalso. revert E.
      destruct (served 0 w); cbn; rewrite !sent_requests_app; cbn;
        rewrite ?app_nil_r; by apply longer_differs.
    + by rewrite handleCreateChat_empty.
Qed.

Lemma X1_witness :
  let cfg := {| app_id := None; initial_auth_token := None |} in
  let ctx := {| currentUser := None; userId := Some "u1"; loading := false;
                dbInstance := true |} in
  let σ := {| shown_messages := []; newMessage := String (ascii_of_nat 9) " ";
              messages_listener := None |} in
  let w := {| profiles := ∅; chats := ∅; messages := ∅; clock := 0; next_id := 0;
              faults := []; trace := [] |} in
  sent_requests (trace (after_send cfg ctx "r1" σ w)) = [].
Proof.
  intros cfg ctx σ w.
  destruct (X1_only_blank_input_is_held_back cfg ctx "r1" σ ChatListScreen_init w)
    as [[_ H] _]; [reflexivity..|].
  apply H. reflexivity.
Defined.

(** X2 — what a served insert stores is the typed text without its
    surrounding whitespace: the text of the new message, and likewise
    the name of the new room, is not empty, neither starts nor ends
    with whitespace, and trimming it again changes nothing. *)
Theorem X2_stored_text_has_no_surrounding_whitespace
    (cfg : config) (ctx : auth_state) (chatId : string)
    (σ : room_state) (ρ : list_state) (w : world) :
  served 0 w = true →
  (send_ready ctx chatId σ = true →
   ∃ m, last (messages (after_send cfg ctx chatId σ w) !!! messages_path cfg chatId)
        = Some m
        ∧ text m.2 = trim (newMessage σ)
        ∧ text m.2 ≠ "" ∧ trim (text m.2) = text m.2
        ∧ starts_with_whitespace (text m.2) = false
        ∧ ends_with_whitespace (text m.2) = false)
  ∧ (trim (newChatName ρ) ≠ "" → dbInstance ctx = true →
     ∃ c, last (chats (after_create cfg ctx ρ w) !!! chats_path cfg) = Some c
          ∧ name c.2 = trim (newChatName ρ)
          ∧ name c.2 ≠ "" ∧ trim (name c.2) = name c.2
          ∧ starts_with_whitespace (name c.2) = false
          ∧ ends_with_whitespace (name c.2) = false).
Proof.
  intros Hs. split.
  - intros ready. unfold after_send.
    rewrite (handleSendMessage_cases _ _ _ _ _ ready). rewrite Hs. cbn [negb].
    apply send_ready_inv in ready as (Ht & _). apply truthy_true in Ht.
    destruct (trim_edges (newMessage σ)) as [H1 H2].
    destruct (served 1 w), (room_exists cfg chatId w); cbn;
      rewrite lookup_total_insert_eq, last_snoc; eexists; (split; [done|]); cbn;
      repeat split; auto; apply trim_idempotent.
  - intros Hn Hdb. apply truthy_true in Hn. unfold after_create.
    rewrite (handleCreateChat_cases _ _ _ _ Hn Hdb), Hs. cbn.
    apply truthy_true in Hn. destruct (trim_edges (newChatName ρ)) as [H1 H2].
    rewrite lookup_total_insert_eq, last_snoc. eexists. split; [done|]. cbn.
    repeat split; auto; apply trim_idempotent.
Qed.

Lemma X2_witness :
  let cfg := {| app_id := None; initial_auth_token := None |} in
  let ctx := {| currentUser := None; userId := Some "u1"; loading := false;
                dbInstance := true |} in
  let σ := {| shown_messages := []; newMessage := "  hi there ";
              messages_listener := None |} in
  let w := {| profiles := ∅; chats := ∅; messages := ∅; clock := 0; next_id := 0;
              faults := []; trace := [] |} in
  ∃ m, last (messages (after_send cfg ctx "r1" σ w) !!! messages_path cfg "r1") = Some m
       ∧ text m.2 = "hi there".
Proof.
  intros cfg ctx σ w.
  destruct (X2_stored_text_has_no_surrounding_whitespace
              cfg ctx "r1" σ ChatListScreen_init w) as [H _]; [reflexivity|].
  destruct H as (m & Hm & Ht & _); [reflexivity|].
  exists m. split; [exact Hm|]. rewrite Ht. reflexivity.
Defined.

(** ** Display names *)

Lemma split_at_0_no_at s : has_at (split_at_0 s) = false.
Proof.
  induction s as [|c s IH]; cbn; [done|].
  destruct (Ascii.eqb c "@") eqn:Hc; cbn; [done|]. by rewrite Hc.
Qed.

Lemma split_at_0_fixed s : has_at s = false → split_at_0 s = s.
Proof.
  induction s as [|c s IH]; cbn; [done|].
  destruct (Ascii.eqb c "@"); cbn; [done|]. intros H. by rewrite IH.
Qed.

Lemma split_at_0_local l d :
  has_at l = false → split_at_0 (l +:+ String "@"%char d) = l.
Proof.
  induction l as [|c l IH]; [done|].
  change (String c l +:+ String "@" d) with (String c (l +:+ String "@" d)).
  cbn. destruct (Ascii.eqb c "@"); cbn; [done|]. intros H. by rewrite IH.
Qed.

Lemma substring_0_6_length s : (String.length (substring_0_6 s) ≤ 6)%nat.
Proof.
  unfold substring_0_6. generalize 6%nat as n.
  induction s as [|c s IH]; intros [|n]; cbn; try lia.
  specialize (IH n). lia.
Qed.

Lemma has_at_app s t : has_at (s +:+ t) = has_at s || has_at t.
Proof.
  induction s as [|c s IH]; [done|].
  change (String c s +:+ t) with (String c (s +:+ t)). cbn. by rewrite IH, orb_assoc.
Qed.

(** X3 — the display name written to a new profile.  For an email
    [l@d] whose part [l] has no ['@'] it is [l]; for any non-empty
    email it contains no ['@']; without an email (or with an empty
    one) it is ["User-"] followed by at most six code units that start
    the identity id. *)
Theorem X3_display_name_of_a_new_profile (u : User) :
  (∀ l d, email u = Some (l +:+ "@" +:+ d) → has_at l = false → displayName_of u = l)
  ∧ (∀ e, email u = Some e → e ≠ "" → has_at (displayName_of u) = false)
  ∧ (email u = None ∨ email u = Some "" →
     ∃ sub, displayName_of u = "User-" +:+ sub
            ∧ (String.length sub ≤ 6)%nat
            ∧ String.prefix sub (uid u) = true).
Proof.
  unfold displayName_of. split; [|split].
  - intros l d -> Hl.
    assert (truthy (l +:+ "@" +:+ d) = true) as ->.
    { apply truthy_true. by destruct l. }
    by apply (split_at_0_local l d).
  - intros e -> He. apply truthy_true in He as ->. apply split_at_0_no_at.
  - intros H. exists (substring_0_6 (uid u)). split; [by destruct H as [-> | ->]|].
    split; [apply substring_0_6_length|].
    unfold substring_0_6. generalize 6%nat as n.
    induction (uid u) as [|c s IH]; intros [|n]; cbn; try done.
    rewrite IH. by destruct (ascii_dec c c).
Qed.

Lemma X3_witness :
  displayName_of {| uid := "Zk39xQ81b"; email := Some "ada.lovelace@example.org" |}
  = "ada.lovelace"
  ∧ ∃ sub, displayName_of {| uid := "Zk39xQ81b"; email := None |} = "User-" +:+ sub
           ∧ (String.length sub ≤ 6)%nat.
Proof.
  split.
  - destruct (X3_display_name_of_a_new_profile
                {| uid := "Zk39xQ81b"; email := Some "ada.lovelace@example.org" |})
      as (H & _).
    apply (H "ada.lovelace" "example.org"); reflexivity.
  - destruct (X3_display_name_of_a_new_profile {| uid := "Zk39xQ81b"; email := None |})
      as (_ & _ & H).
    destruct H as (sub & H1 & H2 & _); [by left|]. eauto.
Defined.

(** X4 — how a message just sent is shown.  To the sender it is
    their own bubble, labelled ["You"], with the trimmed draft as
    body.  To any other viewer it is a foreign bubble with the same
    body, and when the sender has an email, or an id without ['@']
    among its first six code units, its label is the sender's profile
    display name. *)
Theorem X4_bubble_of_a_sent_message
    (cfg : config) (ctx : auth_state) (u : User) (chatId : string)
    (σ : room_state) (w : world) :
  currentUser ctx = Some u →
  userId ctx = Some (uid u) →
  send_ready ctx chatId σ = true →
  served 0 w = true →
  ∃ m, last (messages (after_send cfg ctx chatId σ w) !!! messages_path cfg chatId) = Some m
       ∧ render_message (Some (uid u)) m =
           {| key := m.1; own := true; label := "You"; body := trim (newMessage σ) |}
       ∧ ∀ viewer, viewer ≠ Some (uid u) →
           own (render_message viewer m) = false
           ∧ body (render_message viewer m) = trim (newMessage σ)
           ∧ (truthy_opt (email u) = true ∨ has_at (substring_0_6 (uid u)) = false →
              label (render_message viewer m) = displayName_of u).
Proof.
  intros Hcu Hid ready Hs. unfold after_send.
  rewrite (handleSendMessage_cases _ _ _ _ _ ready), Hs. cbn [negb].
  assert (truthy_opt (email u) = true ∨ has_at (substring_0_6 (uid u)) = false →
          split_at_0 (senderEmail_of (Some u) (uid u)) = displayName_of u) as Hlabel.
  { intros H. unfold senderEmail_of, displayName_of, truthy_opt in *.
    destruct (email u) as [e|]; [destruct (truthy e) eqn:He|].
    - done.
    - destruct H as [?|H]; [done|]. apply split_at_0_fixed.
      by rewrite has_at_app, H.
    - destruct H as [?|H]; [done|]. apply split_at_0_fixed.
      by rewrite has_at_app, H. }
  destruct (served 1 w), (room_exists cfg chatId w); cbn;
    rewrite lookup_total_insert_eq, last_snoc; eexists; (split; [done|]);
    unfold render_message; cbn; rewrite Hid, Hcu; cbn;
    (split; [by rewrite bool_decide_eq_true_2|]);
    intros viewer Hv; rewrite bool_decide_eq_false_2 by done; cbn;
    (split; [done|]); (split; [done|]); by apply Hlabel.
Qed.

Lemma X4_witness :
  let cfg := {| app_id := None; initial_auth_token := None |} in
  let u := {| uid := "u1"; email := Some "ada@example.org" |} in
  let ctx := {| currentUser := Some u; userId := Some "u1"; loading := false;
                dbInstance := true |} in
  let σ := {| shown_messages := []; newMessage := " hello "; messages_listener := None |} in
  let w := {| profiles := ∅; chats := ∅; messages := ∅; clock := 0; next_id := 0;
              faults := []; trace := [] |} in
  ∃ m, last (messages (after_send cfg ctx "r1" σ w) !!! messages_path cfg "r1") = Some m
       ∧ label (render_message (Some "u2") m) = "ada"
       ∧ label (render_message (Some "u1") m) = "You".
Proof.
  intros cfg u ctx σ w.
  destruct (X4_bubble_of_a_sent_message cfg ctx u "r1" σ w)
    as (m & Hm & Hown & Hother); [reflexivity..|].
  exists m. split; [exact Hm|]. split.
  - destruct (Hother (Some "u2")) as (_ & _ & Hl); [done|].
    rewrite Hl by (left; reflexivity). reflexivity.
  - change (Some "u1") with (Some (uid u)). by rewrite Hown.
Defined.

(** ** Errors never leave the screens' handlers *)

(** X5 — the three handlers of the screens return normally whatever
    the backend answers: every error is caught inside.  A send puts at
    most two requests on the wire and a create-room action at most
    one; a logout sends exactly the sign-out, changes nothing in the
    directory's state and nothing that is stored. *)
Theorem X5_screen_handlers_never_throw
    (cfg : config) (ctx : auth_state) (chatId : string)
    (σ : room_state) (ρ : list_state) (w : world) :
  (∃ σ' w', handleSendMessage module_scope cfg ctx chatId (σ, w) = (Ok (), (σ', w'))
     ∧ (length (sent_requests (trace w')) ≤ length (sent_requests (trace w)) + 2)%nat)
  ∧ (∃ ρ' w', handleCreateChat module_scope cfg ctx (ρ, w) = (Ok (), (ρ', w'))
       ∧ (length (sent_requests (trace w')) ≤ length (sent_requests (trace w)) + 1)%nat)
  ∧ (∃ w', handleLogout module_scope (ρ, w) = (Ok (), (ρ, w'))
       ∧ sent_requests (trace w') = sent_requests (trace w) ++ [SignOut]
       ∧ profiles w' = profiles w ∧ chats w' = chats w ∧ messages w' = messages w).
Proof.
  split; [|split].
  - destruct (handleSendMessage_outcome cfg ctx chatId σ w)
      as (σ' & w' & -> & _ & _ & _ & _ & _ & Hn). eauto.
  - destruct (handleCreateChat_outcome cfg ctx ρ w)
      as (ρ' & w' & -> & _ & _ & _ & _ & _ & Hn). eauto.
  - rewrite handleLogout_cases.
    destruct (served 0 w); eexists; (split; [reflexivity|]); cbn;
      rewrite !sent_requests_app; cbn; by rewrite ?app_nil_r.
Qed.

(** ** The backend only grows *)

Lemma rooms_kept_refl l : rooms_kept l l.
Proof. intros n c H. exists c. by unfold same_room_fields. Qed.

Lemma rooms_kept_trans l1 l2 l3 : rooms_kept l1 l2 → rooms_kept l2 l3 → rooms_kept l1 l3.
Proof.
  intros H12 H23 n c H. destruct (H12 n c H) as (c2 & H2 & F2).
  destruct (H23 n c2 H2) as (c3 & H3 & F3). exists c3. split; [done|].
  unfold same_room_fields in *. intuition congruence.
Qed.

Lemma rooms_kept_app l k : rooms_kept l (l ++ k).
Proof.
  intros n c H. exists c. split; [by apply lookup_app_l_Some|].
  by unfold same_room_fields.
Qed.

Lemma rooms_kept_update_in id d now l :
  rooms_kept l (update_in id (merge_summary d now) l).
Proof.
  intros n c H.
  pose proof (update_in_frame id (merge_summary d now) l) as F.
  eapply Forall2_lookup_l in F as (c' & ? & ?); [eauto| |done].
  intros ?. done.
Qed.

Lemma store_kept_refl w : store_kept w w.
Proof. repeat split; auto using rooms_kept_refl. Qed.

Lemma store_kept_trans w1 w2 w3 : store_kept w1 w2 → store_kept w2 w3 → store_kept w1 w3.
Proof.
  intros (P1 & M1 & R1) (P2 & M2 & R2). repeat split; eauto using rooms_kept_trans.
Qed.

Lemma store_kept_from w w' :
  (profiles w' = profiles w
   ∨ ∃ p d, profiles w !! p = None ∧ profiles w' = <[p := d]> (profiles w)) →
  (messages w' = messages w
   ∨ ∃ p m, messages w' = <[p := messages w !!! p ++ [m]]> (messages w)) →
  (chats w' = chats w
   ∨ (∃ p c, chats w' = <[p := chats w !!! p ++ [c]]> (chats w))
   ∨ ∃ p id d now,
       chats w' = <[p := update_in id (merge_summary d now) (chats w !!! p)]> (chats w)) →
  store_kept w w'.
Proof.
  intros HP HM HC. split; [|split].
  - intros p d Hd. destruct HP as [->|(q & e & Hq & ->)]; [done|].
    rewrite lookup_insert_ne; [done|]. congruence.
  - intros p n m Hm. destruct HM as [->|(q & e & ->)]; [done|].
    destruct (decide (q = p)) as [->|Hne].
    + rewrite lookup_total_insert_eq. by apply lookup_app_l_Some.
    + by rewrite lookup_total_insert_ne.
  - intros p. destruct HC as [->|[(q & c & ->)|(q & id & d & now & ->)]].
    + apply rooms_kept_refl.
    + destruct (decide (q = p)) as [->|Hne].
      * rewrite lookup_total_insert_eq. apply rooms_kept_app.
      * rewrite lookup_total_insert_ne by done. apply rooms_kept_refl.
    + destruct (decide (q = p)) as [->|Hne].
      * rewrite lookup_total_insert_eq. apply rooms_kept_update_in.
      * rewrite lookup_total_insert_ne by done. apply rooms_kept_refl.
Qed.

Lemma step_store_kept cfg e s : store_kept s.2 (step module_scope cfg e s).2.
Proof.
  destruct s as [t w]. destruct e; cbn [step snd].
  - destruct (callback_outcome cfg user (provider t) w)
      as (r & σ' & w' & -> & Hc & Hm & Hp). cbn.
    apply store_kept_from; [|by left|by left].
    destruct Hp as [->|(u & _ & Hn & ->)]; eauto.
  - destruct (directory t) as [σ|]; [|apply store_kept_refl].
    destruct (chats_listener σ); [|apply store_kept_refl].
    destruct (chats_onSnapshot _ _ _); apply store_kept_refl.
  - destruct (transcript t) as [[chatId σ]|]; [|apply store_kept_refl].
    case_bool_decide; apply store_kept_refl.
  - destruct (directory t), (app t); try apply store_kept_refl.
    case_bool_decide; apply store_kept_refl.
  - destruct (transcript t), (app t); apply store_kept_refl.
  - destruct (directory t); apply store_kept_refl.
  - destruct (directory t); apply store_kept_refl.
  - destruct (directory t) as [σ|]; [|apply store_kept_refl].
    destruct (handleCreateChat_outcome cfg (provider t) σ w)
      as (σ' & w' & -> & _ & _ & Hp & Hm & Hc & _). cbn.
    apply store_kept_from; [by left|by left|].
    destruct Hc as [->|(id & at_ & _ & ->)]; eauto 8.
  - destruct (directory t) as [σ|]; [|apply store_kept_refl].
    rewrite handleLogout_cases. destruct (served 0 w); cbn;
      apply store_kept_from; by left.
  - destruct (transcript t) as [[chatId σ]|]; apply store_kept_refl.
  - destruct (transcript t) as [[chatId σ]|]; [|apply store_kept_refl].
    destruct (handleSendMessage_outcome cfg (provider t) chatId σ w)
      as (σ' & w' & -> & _ & _ & Hp & Hm & Hc & _). cbn.
    apply store_kept_from; [by left| |].
    + destruct Hm as [->|(m & _ & _ & ->)]; eauto.
    + destruct Hc as [->| ->]; eauto 8.
Qed.

(** X6 — whatever the client does, nothing stored is lost or
    rewritten: over any sequence of events, from any state, every
    profile is kept as it is, every message stays at its place in its
    room unchanged, and every room stays at its place with its id,
    name, participants and creation timestamp. *)
Theorem X6_backend_is_append_only (cfg : config) (es : list event) (s : tree * world) :
  store_kept s.2 (run module_scope cfg es s).2.
Proof.
  revert s. induction es as [|e es IH]; intros s; cbn.
  - apply store_kept_refl.
  - eapply store_kept_trans; [apply step_store_kept|apply IH].
Qed.

(** ** Rooms never gain a participant *)

Lemma update_in_elem id f l (c' : string * chat_doc) :
  c' ∈ update_in id f l → ∃ c, c ∈ l ∧ c'.1 = c.1 ∧ (c'.2 = c.2 ∨ c'.2 = f c.2).
Proof.
  unfold update_in. rewrite list_elem_of_fmap. intros ([i c] & -> & Hin).
  exists (i, c). split; [done|]. destruct (String.eqb i id); cbn; auto.
Qed.

Lemma single_participant_from w w' (who : option string) :
  single_participant_rooms w →
  (chats w' = chats w
   ∨ (∃ p id n at_, n ≠ "" ∧
        chats w' = <[p := chats w !!! p ++
                       [(id, {| name := n; participants := Some [who];
                                createdAt := at_; lastMessage := None;
                                lastMessageTime := None |})]]> (chats w))
   ∨ ∃ p id d now,
       chats w' = <[p := update_in id (merge_summary d now) (chats w !!! p)]> (chats w)) →
  single_participant_rooms w'.
Proof.
  intros Hw H p c Hc.
  destruct H as [E|[(q & id & n & at_ & Hn & E)|(q & id & d & now & E)]];
    rewrite E in Hc; [by apply (Hw p)|..];
    (destruct (decide (q = p)) as [->|Hne];
      [rewrite lookup_total_insert_eq in Hc
      |rewrite lookup_total_insert_ne in Hc by done; by apply (Hw p)]).
  - apply elem_of_app in Hc as [Hc|Hc]; [by apply (Hw p)|].
    apply list_elem_of_singleton in Hc as ->. cbn. eauto.
  - apply update_in_elem in Hc as (c0 & Hin & _ & [E'|E']); rewrite E';
      by apply (Hw p).
Qed.

Lemma step_single_participant cfg e s :
  single_participant_rooms s.2 →
  single_participant_rooms (step module_scope cfg e s).2.
Proof.
  destruct s as [t w]. intros Hw. cbn [snd] in Hw. destruct e; cbn [step snd].
  - destruct (callback_outcome cfg user (provider t) w)
      as (r & σ' & w' & -> & Hc & _). cbn.
    apply (single_participant_from w w' None Hw). by left.
  - destruct (directory t) as [σ|]; [|done].
    destruct (chats_listener σ); [|done]. by destruct (chats_onSnapshot _ _ _).
  - destruct (transcript t) as [[chatId σ]|]; [|done]. by case_bool_decide.
  - destruct (directory t), (app t); try done. by case_bool_decide.
  - by destruct (transcript t), (app t).
  - by destruct (directory t).
  - by destruct (directory t).
  - destruct (directory t) as [σ|]; [|done].
    destruct (handleCreateChat_outcome cfg (provider t) σ w)
      as (σ' & w' & -> & _ & _ & _ & _ & Hc & _). cbn.
    apply (single_participant_from w w' (userId (provider t)) Hw).
    destruct Hc as [->|(id & at_ & Hn & ->)]; eauto 10.
  - destruct (directory t) as [σ|]; [|done].
    rewrite handleLogout_cases. by destruct (served 0 w).
  - by destruct (transcript t) as [[chatId σ]|].
  - destruct (transcript t) as [[chatId σ]|]; [|done].
    destruct (handleSendMessage_outcome cfg (provider t) chatId σ w)
      as (σ' & w' & -> & _ & _ & _ & _ & Hc & _). cbn.
    apply (single_participant_from w w' None Hw).
    destruct Hc as [->| ->]; eauto 10.
Qed.

(** X7 — the client never adds a participant to a room: a create-room
    action stores the room with the creator as its one participant,
    and nothing it sends afterwards touches the list.  So when every
    room has a name and one participant entry, this is still so after
    any sequence of events, and no room passes the directory's
    membership test for two different identity ids. *)
Theorem X7_rooms_keep_their_single_participant
    (cfg : config) (es : list event) (s : tree * world) :
  single_participant_rooms s.2 →
  let w' := (run module_scope cfg es s).2 in
  single_participant_rooms w'
  ∧ ∀ p c a b, c ∈ chats w' !!! p →
      is_participant a c = Ok true → is_participant b c = Ok true → a = b.
Proof.
  intros Hs w'. assert (single_participant_rooms w') as Hw'.
  { subst w'. revert s Hs. induction es as [|e es IH]; intros s Hs; cbn; [done|].
    apply IH. by apply step_single_participant. }
  split; [done|]. intros p c a b Hc Ha Hb.
  destruct (Hw' p c Hc) as (_ & u & Hu).
  rewrite is_participant_total, Hu in Ha, Hb.
  injection Ha as Ha. injection Hb as Hb.
  apply bool_decide_eq_true, list_elem_of_singleton in Ha, Hb. congruence.
Qed.

Lemma X7_witness :
  let cfg := {| app_id := None; initial_auth_token := None |} in
  let w0 := {| profiles := ∅; chats := ∅; messages := ∅; clock := 0; next_id := 0;
               faults := []; trace := [] |} in
  let u := {| uid := "u1"; email := None |} in
  let es := [IdentityChanged None; IdentityChanged (Some u); TypeChatName "General";
             CreateChat] in
  single_participant_rooms (run module_scope cfg es (tree_init, w0)).2
  ∧ length (chats (run module_scope cfg es (tree_init, w0)).2 !!! chats_path cfg) = 1%nat.
Proof.
  intros cfg w0 u es. split; [|reflexivity].
  apply (X7_rooms_keep_their_single_participant cfg es (tree_init, w0)).
  intros p c Hc. cbn in Hc. rewrite lookup_total_empty in Hc.
  by apply elem_of_nil in Hc.
Defined.

(** ** Listeners follow the screens *)

Lemma commit_wired cfg t :
  (∀ σ, directory (commit cfg t) = Some σ →
     chats_listener σ = chats_subscription (provider (commit cfg t)))
  ∧ (∀ chatId ρ, transcript (commit cfg t) = Some (chatId, ρ) →
       truthy chatId = true
       ∧ messages_listener ρ = messages_subscription cfg (provider (commit cfg t)) chatId
       ∧ ∃ a, app (commit cfg t) = Some a ∧ selectedChatId a = Some chatId).
Proof.
  unfold commit, App_render. destruct (app t) as [a|]; cbn; [|by split].
  destruct (view a); cbn; repeat case_bool_decide; cbn; try by split.
  - split; [|done]. by intros σ [= <-].
  - destruct (selectedChatId a) as [id|] eqn:Hid; [destruct (truthy id) eqn:Ht|];
      cbn; try by split.
    split; [done|]. intros chatId ρ [= <- <-]. cbn. eauto.
Qed.

Lemma rerender_wired cfg prev t :
  (∀ σ, directory (rerender cfg prev t) = Some σ →
     chats_listener σ = chats_subscription (provider t))
  ∧ (∀ chatId ρ, transcript (rerender cfg prev t) = Some (chatId, ρ) →
       truthy chatId = true
       ∧ messages_listener ρ = messages_subscription cfg (provider t) chatId
       ∧ ∃ a, app (rerender cfg prev t) = Some a ∧ selectedChatId a = Some chatId)
  ∧ provider (rerender cfg prev t) = provider t.
Proof.
  unfold rerender, rerender_steps.
  destruct (loading (provider t)); cbn -[commit].
  { split; [done|]. split; [|done]. by intros ? ? [=]. }
  destruct (app t) as [a|] eqn:Ha; cbn -[commit]; [case_bool_decide|]; cbn -[commit].
  - destruct (commit_wired cfg t) as [H1 H2].
    destruct (commit_keeps cfg t) as [Hp _]. rewrite Hp in H1, H2.
    split; [exact H1|]. split; [exact H2|exact Hp].
  - match goal with |- context [commit cfg ?x] => set (t2 := x) end.
    destruct (commit_wired cfg t2) as [H1 H2].
    destruct (commit_keeps cfg t2) as [Hp _].
    assert (provider t2 = provider t) as Hq by (subst t2; apply commit_keeps).
    rewrite Hp, Hq in H1, H2. split; [exact H1|]. split; [exact H2|]. by rewrite Hp.
  - match goal with |- context [commit cfg ?x] => set (t2 := x) end.
    destruct (commit_wired cfg t2) as [H1 H2].
    destruct (commit_keeps cfg t2) as [Hp _].
    assert (provider t2 = provider t) as Hq
        by (subst t2; cbn -[commit]; apply (commit_keeps cfg (with_app App_init t))).
    rewrite Hp, Hq in H1, H2. split; [exact H1|]. split; [exact H2|]. by rewrite Hp.
Qed.

Ltac keep_wired H0 Hu H1 H2 :=
  cbn; split; [exact H0|]; split; [exact Hu|]; split;
  [first [exact H1 | intros ? [= <-]; cbn; erewrite <- H1 by done; done]
  |first [exact H2
         |intros ? ? [= <- <-]; cbn;
          edestruct H2 as (? & ? & ?); [done|]; repeat split; try done; congruence]].

Lemma step_wired cfg e t w :
  wired cfg t → wired cfg (step module_scope cfg e (t, w)).1.
Proof.
  intros Hw. pose proof Hw as (H0 & Hu & H1 & H2). destruct e; cbn [step].
  - pose proof (callback_records cfg user (provider t) w) as Hcb.
    destruct (onAuthStateChanged_callback _ _ _ _) as [r [σ' w']].
    destruct Hcb as (Hcu & Hid & Hdb & _). cbn [fst].
    destruct (rerender_wired cfg (currentUser (provider t)) (with_provider σ' t))
      as (R1 & R2 & Rp).
    unfold wired. rewrite Rp. cbn in *.
    split; [congruence|]. split; [congruence|]. split; [exact R1|exact R2].
  - destruct (directory t) as [σ|] eqn:Hd; [|exact Hw].
    destruct (chats_listener σ) eqn:Hl; [|exact Hw].
    rewrite chats_onSnapshot_filter. keep_wired H0 Hu H1 H2.
  - destruct (transcript t) as [[chatId σ]|] eqn:Hd; [|exact Hw].
    case_bool_decide; [|exact Hw]. keep_wired H0 Hu H1 H2.
  - destruct (directory t) as [σ|] eqn:Hd; [|exact Hw].
    destruct (app t) as [a|] eqn:Ha; [|exact Hw].
    case_bool_decide; [|exact Hw]. cbn [fst].
    match goal with |- context [commit cfg ?x] => set (t2 := x) end.
    destruct (commit_wired cfg t2) as [C1 C2].
    destruct (commit_keeps cfg t2) as [Hp _]. unfold wired. rewrite Hp in *.
    subst t2. cbn -[commit] in *.
    split; [exact H0|]. split; [exact Hu|]. split; [exact C1|exact C2].
  - destruct (transcript t) as [[chatId σ]|] eqn:Hd; [|exact Hw].
    destruct (app t) as [a|] eqn:Ha; [|exact Hw]. cbn [fst].
    match goal with |- context [commit cfg ?x] => set (t2 := x) end.
    destruct (commit_wired cfg t2) as [C1 C2].
    destruct (commit_keeps cfg t2) as [Hp _]. unfold wired. rewrite Hp in *.
    subst t2. cbn -[commit] in *.
    split; [exact H0|]. split; [exact Hu|]. split; [exact C1|exact C2].
  - destruct (directory t) as [σ|] eqn:Hd; [|exact Hw]. keep_wired H0 Hu H1 H2.
  - destruct (directory t) as [σ|] eqn:Hd; [|exact Hw]. keep_wired H0 Hu H1 H2.
  - destruct (directory t) as [σ|] eqn:Hd; [|exact Hw].
    destruct (handleCreateChat_outcome cfg (provider t) σ w)
      as (σ' & w' & -> & Hl & _).
    cbn. split; [exact H0|]. split; [exact Hu|]. split; [|exact H2].
    intros ? [= <-]. rewrite Hl. by apply H1.
  - destruct (directory t) as [σ|] eqn:Hd; [|exact Hw].
    rewrite handleLogout_cases. destruct (served 0 w); keep_wired H0 Hu H1 H2.
  - destruct (transcript t) as [[chatId σ]|] eqn:Hd; [|exact Hw].
    keep_wired H0 Hu H1 H2.
  - destruct (transcript t) as [[chatId σ]|] eqn:Hd; [|exact Hw].
    destruct (handleSendMessage_outcome cfg (provider t) chatId σ w)
      as (σ' & w' & -> & Hl & _).
    cbn. split; [exact H0|]. split; [exact Hu|]. split; [exact H1|].
    intros ? ? [= <- <-]. rewrite Hl. by apply H2.
Qed.

Lemma reachable_wired cfg s : reachable module_scope cfg s → wired cfg s.1.
Proof.
  intros (es & w0 & ->). induction es as [|e es IH] using rev_ind.
  - cbn. by repeat split.
  - unfold run in *. rewrite fold_left_app. cbn [fold_left].
    destruct (fold_left _ es _) as [t w]. by apply step_wired.
Qed.

Lemma string_length_app s t :
  String.length (s +:+ t) = (String.length s + String.length t)%nat.
Proof.
  induction s as [|c s IH]; [done|].
  change (String c s +:+ t) with (String c (s +:+ t)). cbn. by rewrite IH.
Qed.

Lemma string_app_inj_r s1 s2 t : s1 +:+ t = s2 +:+ t → s1 = s2.
Proof.
  revert s2. induction s1 as [|c s1 IH]; intros [|d s2] E; [done|..].
  - apply (f_equal String.length) in E. rewrite !string_length_app in E.
    cbn in E. lia.
  - apply (f_equal String.length) in E. rewrite !string_length_app in E.
    cbn in E. lia.
  - change (String c (s1 +:+ t) = String d (s2 +:+ t)) in E.
    injection E as -> E. by rewrite (IH _ E).
Qed.

Lemma messages_path_inj cfg a b : messages_path cfg a = messages_path cfg b → a = b.
Proof.
  unfold messages_path. intros E.
  do 3 apply (inj (String.app _)) in E. by apply string_app_inj_r in E.
Qed.

(** X8 — in every state the client can reach, the transcript listens
    to the query on the messages of the room that is selected, ordered
    by creation timestamp, and to nothing else.
    A snapshot delivered for that room replaces the shown messages as
    a whole and keeps the draft; a snapshot delivered for any other
    room, or while no transcript is on screen, changes nothing. *)
Theorem X8_transcript_listens_to_the_selected_room
    (cfg : config) (s : tree * world) (docs : list (string * message_doc)) :
  reachable module_scope cfg s →
  (∀ chatId ρ, transcript s.1 = Some (chatId, ρ) →
     messages_listener ρ = Some (messages_query cfg chatId)
     ∧ (selectedChatId <$> app s.1) = Some (Some chatId)
     ∧ (let s' := step module_scope cfg (MessagesSnapshot (messages_path cfg chatId) docs) s in
        ∃ ρ', transcript s'.1 = Some (chatId, ρ')
              ∧ shown_messages ρ' = docs ∧ newMessage ρ' = newMessage ρ ∧ s'.2 = s.2)
     ∧ ∀ other, other ≠ chatId →
         step module_scope cfg (MessagesSnapshot (messages_path cfg other) docs) s = s)
  ∧ (transcript s.1 = None →
     ∀ path, step module_scope cfg (MessagesSnapshot path docs) s = s).
Proof.
  intros Hr. pose proof (reachable_wired cfg s Hr) as (Hdb & _ & _ & H2).
  destruct s as [t w]. cbn [fst snd] in *. split.
  - intros chatId ρ Ht. destruct (H2 chatId ρ Ht) as (Hc & Hl & a & Ha & Hsel).
    unfold messages_subscription in Hl. rewrite Hdb, Hc in Hl. cbn in Hl.
    split; [done|]. split; [by rewrite Ha; cbn; rewrite Hsel|]. split.
    + cbn [step]. rewrite Ht, Hl. rewrite bool_decide_eq_true_2 by done.
      eexists. split; [reflexivity|]. cbn. by rewrite docs_with_id.
    + intros other Hne. cbn [step]. rewrite Ht, Hl.
      rewrite bool_decide_eq_false_2; [done|]. cbn.
      intros E. apply (inj Some), messages_path_inj in E. done.
  - intros Ht path. cbn [step]. by rewrite Ht.
Qed.

Lemma X8_witness :
  let cfg := {| app_id := None; initial_auth_token := None |} in
  let w0 := {| profiles := ∅; chats := ∅; messages := ∅; clock := 0; next_id := 0;
               faults := []; trace := [] |} in
  let u := {| uid := "u1"; email := Some "a@x.org" |} in
  let room id := (id, {| name := "General"; participants := Some [Some "u1"];
                         createdAt := 0; lastMessage := None; lastMessageTime := None |}) in
  let es := [IdentityChanged None; IdentityChanged (Some u);
             ChatsSnapshot [room "r1"; room "r2"];
             SelectChat (room "r1"); TypeMessage "dra"] in
  let s := run module_scope cfg es (tree_init, w0) in
  let m := ("m1", {| text := "hi"; senderId := "u2"; senderEmail := "b@x.org";
                     msg_createdAt := 4 |}) in
  step module_scope cfg (MessagesSnapshot (messages_path cfg "r2") [m]) s = s.
Proof.
  intros cfg w0 u room es s m.
  destruct (X8_transcript_listens_to_the_selected_room cfg s [m]) as [H _].
  - by exists es, w0.
  - edestruct (H "r1") as (_ & _ & _ & Hother); [vm_compute; reflexivity|].
    by apply Hother.
Defined.

(** X9 — in every state the client can reach, the directory filters
    for the identity that is current: when a snapshot arrives while
    the directory is on screen for an identity with a non-empty id, the
    rooms shown afterwards are exactly the rooms of the snapshot that
    list this id, and the form fields are kept.  With an empty id
    there is no listener and the snapshot changes nothing. *)
Theorem X9_directory_filters_for_the_current_identity
    (cfg : config) (s : tree * world) (docs : list (string * chat_doc))
    (σ : list_state) (u : User) :
  reachable module_scope cfg s →
  directory s.1 = Some σ →
  currentUser (provider s.1) = Some u →
  let s' := step module_scope cfg (ChatsSnapshot docs) s in
  (uid u = "" → s' = s)
  ∧ (uid u ≠ "" →
     ∃ σ', directory s'.1 = Some σ'
       ∧ (∀ c, c ∈ shown_chats σ' ↔
               c ∈ docs ∧ ∃ l, participants c.2 = Some l ∧ Some (uid u) ∈ l)
       ∧ newChatName σ' = newChatName σ ∧ showCreateChat σ' = showCreateChat σ
       ∧ s'.2 = s.2).
Proof.
  intros Hr Hd Hcu s'. subst s'.
  pose proof (reachable_wired cfg s Hr) as (Hdb & Hu & H1 & _).
  destruct s as [t w]. cbn [fst snd] in *.
  specialize (H1 σ Hd). unfold chats_subscription in H1.
  rewrite Hdb, Hu, Hcu in H1. cbn in H1. cbn [step]. rewrite Hd. split.
  - intros E. rewrite E in H1. cbn in H1. by rewrite H1.
  - intros Hne. apply truthy_true in Hne. rewrite Hne in H1. rewrite H1.
    rewrite chats_onSnapshot_filter. eexists. split; [reflexivity|]. cbn.
    split; [|done]. intros c. rewrite !list_elem_of_In, filter_In.
    split; intros [Hin H]; (split; [done|]).
    + destruct (participants c.2) as [l|]; [|done].
      exists l. split; [done|]. by apply bool_decide_eq_true in H.
    + destruct H as (l & -> & Hl). by apply bool_decide_eq_true.
Qed.

Lemma X9_witness :
  let cfg := {| app_id := None; initial_auth_token := None |} in
  let w0 := {| profiles := ∅; chats := ∅; messages := ∅; clock := 0; next_id := 0;
               faults := []; trace := [] |} in
  let u1 := {| uid := "u1"; email := Some "a@x.org" |} in
  let u2 := {| uid := "u2"; email := None |} in
  let room id who := (id, {| name := "Room"; participants := Some [Some who];
                             createdAt := 0; lastMessage := None;
                             lastMessageTime := None |}) in
  let s := run module_scope cfg
             [IdentityChanged None; IdentityChanged (Some u1);
              ChatsSnapshot [room "r1" "u1"]; IdentityChanged (Some u2)] (tree_init, w0) in
  ∃ σ', directory (step module_scope cfg
                     (ChatsSnapshot [room "r1" "u1"; room "r2" "u2"]) s).1 = Some σ'
        ∧ room "r2" "u2" ∈ shown_chats σ' ∧ room "r1" "u1" ∉ shown_chats σ'.
Proof.
  intros cfg w0 u1 u2 room s.
  edestruct (X9_directory_filters_for_the_current_identity cfg s
               [room "r1" "u1"; room "r2" "u2"]) as [_ H].
  - by eexists [_; _; _; _], w0.
  - vm_compute. reflexivity.
  - vm_compute. reflexivity.
  - destruct H as (σ' & Hd & Hiff & _); [done|].
    exists σ'. split; [exact Hd|]. split.
    + apply Hiff. split; [rewrite !elem_of_cons; auto|].
      eexists. split; [reflexivity|]. by apply list_elem_of_singleton.
    + intros Hin. apply Hiff in Hin as (_ & l & [= <-] & Hl).
      by apply list_elem_of_singleton in Hl.
Defined.

(** ** The transcript on the backend's snapshots *)

Global Instance by_createdAt_total : Total by_createdAt.
Proof. unfold by_createdAt. intros a b. lia. Qed.

Lemma query_reachable_reachable cfg s :
  query_reachable module_scope cfg s → reachable module_scope cfg s.
Proof.
  induction 1 as [w0|e s _ (es & w0 & ->) _].
  - by exists [], w0.
  - exists (es ++ [e]), w0. unfold run. by rewrite fold_left_app.
Qed.

(** What a commit leaves in the transcript's list: what was there, or
    nothing when the screen is mounted anew. *)
Lemma commit_shown cfg (P : list message → Prop) t :
  P [] →
  (∀ c ρ, transcript t = Some (c, ρ) → P (shown_messages ρ)) →
  ∀ c ρ, transcript (commit cfg t) = Some (c, ρ) → P (shown_messages ρ).
Proof.
  intros Hnil Ht c ρ. unfold commit.
  destruct (app t) as [a|]; [|done].
  destruct (App_render (currentUser (provider t)) a) as [[]|]; try done.
  intros [= <- <-]. cbn. destruct (transcript t) as [[c' ρ']|]; cbn; eauto.
Qed.

Lemma rerender_shown cfg (P : list message → Prop) prev t :
  P [] →
  (∀ c ρ, transcript t = Some (c, ρ) → P (shown_messages ρ)) →
  ∀ c ρ, transcript (rerender cfg prev t) = Some (c, ρ) → P (shown_messages ρ).
Proof.
  intros Hnil Ht. unfold rerender, rerender_steps.
  destruct (loading (provider t)); cbn -[commit]; [done|].
  destruct (app t) as [a|]; cbn -[commit]; [case_bool_decide|]; cbn -[commit].
  - by apply commit_shown.
  - apply commit_shown; [done|]. cbn -[commit]. by apply commit_shown.
  - apply commit_shown; [done|]. cbn -[commit]. by apply commit_shown.
Qed.

(** With the snapshots of the backend, the transcript's list is in
    ascending order of creation timestamp at every moment. *)
Lemma query_reachable_sorted cfg s :
  query_reachable module_scope cfg s →
  ∀ c ρ, transcript s.1 = Some (c, ρ) → Sorted by_createdAt (shown_messages ρ).
Proof.
  induction 1 as [w0|e [t w] Hr IH Hb]; [done|].
  apply query_reachable_reachable, reachable_wired in Hr as (Hdb & _ & _ & Hw).
  cbn [fst snd] in *. destruct e; cbn [step].
  - destruct (onAuthStateChanged_callback _ _ _ _) as [r [σ' w']]. cbn [fst].
    apply rerender_shown; [constructor|exact IH].
  - destruct (directory t) as [σ|]; [|exact IH].
    destruct (chats_listener σ); [|exact IH].
    destruct (chats_onSnapshot _ _ _); exact IH.
  - destruct (transcript t) as [[chatId σ]|] eqn:Ht; [|by cbn [fst]; rewrite Ht].
    case_bool_decide as Hq; [|by cbn [fst]; rewrite Ht].
    intros c ρ [= <- <-]. cbn. rewrite docs_with_id.
    destruct (Hw chatId σ eq_refl) as (Hc & Hl & _).
    unfold messages_subscription in Hl. rewrite Hdb, Hc in Hl.
    unfold from_backend in Hb. cbn [fst snd] in Hb. rewrite Ht, Hl in Hb. rewrite Hl in Hq.
    rewrite Hb by (by injection Hq). unfold run_query. cbn. apply Sorted_merge_sort, _.
  - destruct (directory t) as [σ|]; [|exact IH].
    destruct (app t) as [a|]; [|exact IH].
    case_bool_decide; [|exact IH]. cbn [fst]. apply commit_shown; [constructor|exact IH].
  - destruct (transcript t) as [[chatId σ]|] eqn:Ht; [|by cbn [fst]; rewrite Ht].
    destruct (app t) as [a|]; [|by cbn [fst]; rewrite Ht]. cbn [fst].
    apply commit_shown; [constructor|]. cbn. by rewrite Ht.
  - destruct (directory t) as [σ|]; exact IH.
  - destruct (directory t) as [σ|]; exact IH.
  - destruct (directory t) as [σ|]; [|exact IH].
    destruct (handleCreateChat _ _ _ _) as [r [σ' w']]. exact IH.
  - destruct (directory t) as [σ|]; [|exact IH].
    destruct (handleLogout _ _) as [r [σ' w']]. exact IH.
  - destruct (transcript t) as [[chatId σ]|] eqn:Ht; [|by cbn [fst]; rewrite Ht].
    intros c ρ [= <- <-]. cbn. by apply (IH chatId).
  - destruct (transcript t) as [[chatId σ]|] eqn:Ht; [|by cbn [fst]; rewrite Ht].
    destruct (handleSendMessage_outcome cfg (provider t) chatId σ w)
      as (σ' & w' & -> & _ & Hs & _).
    intros c ρ [= <- <-]. rewrite Hs. by apply (IH chatId).
Qed.

(** Typing a draft and sending it from the transcript. *)
Lemma type_then_send cfg t w chatId ρ d :
  transcript t = Some (chatId, ρ) →
  let σ := {| shown_messages := shown_messages ρ; newMessage := d;
              messages_listener := messages_listener ρ |} in
  let s' := run module_scope cfg [TypeMessage d; SendMessage] (t, w) in
  provider s'.1 = provider t
  ∧ s'.2 = after_send cfg (provider t) chatId σ w
  ∧ ∃ σ', transcript s'.1 = Some (chatId, σ')
          ∧ messages_listener σ' = messages_listener ρ.
Proof.
  intros Ht σ s'. subst s'. unfold run. cbn [fold_left step]. rewrite Ht. cbn.
  fold σ. unfold after_send.
  destruct (handleSendMessage_outcome cfg (provider t) chatId σ w)
    as (σ' & w' & -> & Hl & _).
  cbn. eauto.
Qed.

(** C3 — with the snapshots of the backend, the transcript of the
    selected room listens to the query that orders the room's messages
    by [createdAt], and at every moment shows its messages in
    ascending order of creation timestamp.  The order is the query's:
    the callback and the render keep the order of the snapshot, with
    no sort of their own.  When two drafts are sent one after the
    other and the backend then delivers the query's result, the
    transcript shows every stored message of the room, the first
    draft's message before the second's. *)
Theorem C3_transcript_in_ascending_creation_order
    (cfg : config) (s : tree * world) (chatId : string) (ρ : room_state)
    (d1 d2 : string) :
  query_reachable module_scope cfg s →
  transcript s.1 = Some (chatId, ρ) →
  messages_listener ρ =
    Some {| q_path := messages_path cfg chatId; q_orderBy := Some "createdAt" |}
  ∧ Sorted by_createdAt (shown_messages ρ)
  ∧ (∀ viewer docs σ,
       map key (render_messages viewer (messages_onSnapshot docs σ)) = map fst docs)
  ∧ (truthy (trim d1) = true → truthy (trim d2) = true →
     truthy_opt (userId (provider s.1)) = true → faults s.2 = [] →
     let s1 := run module_scope cfg [TypeMessage d1; SendMessage] s in
     let s2 := run module_scope cfg [TypeMessage d2; SendMessage] s1 in
     let sender := default "" (userId (provider s.1)) in
     let who := senderEmail_of (currentUser (provider s.1)) sender in
     let m1 := (auto_id (next_id s.2),
                {| text := trim d1; senderId := sender; senderEmail := who;
                   msg_createdAt := clock s.2 |}) in
     let m2 := (auto_id (next_id s1.2),
                {| text := trim d2; senderId := sender; senderEmail := who;
                   msg_createdAt := clock s1.2 |}) in
     ∃ e ρ',
       messages_delivery s2 = Some e
       ∧ transcript (step module_scope cfg e s2).1 = Some (chatId, ρ')
       ∧ shown_messages ρ' ≡ₚ messages s2.2 !!! messages_path cfg chatId
       ∧ Sorted by_createdAt (shown_messages ρ')
       ∧ before m1 m2 (shown_messages ρ')).
Proof.
  intros Hr Ht.
  pose proof (query_reachable_sorted cfg s Hr chatId ρ Ht) as Hsorted.
  apply query_reachable_reachable, reachable_wired in Hr as (Hdb & _ & _ & Hw).
  destruct (Hw chatId ρ Ht) as (Hc & Hl & _).
  unfold messages_subscription in Hl. rewrite Hdb, Hc in Hl. cbn in Hl.
  split; [exact Hl|]. split; [exact Hsorted|]. split.
  { intros viewer docs σ. unfold messages_onSnapshot, render_messages.
    cbn [shown_messages setMessages]. by rewrite docs_with_id, map_map. }
  intros Hd1 Hd2 Hid Hf s1 s2 sender who m1 m2.
  destruct s as [t w]. cbn [fst snd] in *.
  destruct (type_then_send cfg t w chatId ρ d1 Ht) as (Hp1 & Hw1 & ρ1 & Ht1 & Hl1).
  fold s1 in Hp1, Hw1, Ht1. destruct s1 as [t1 w1]. cbn [fst snd] in *.
  destruct (type_then_send cfg t1 w1 chatId ρ1 d2 Ht1) as (Hp2 & Hw2 & ρ2 & Ht2 & Hl2).
  fold s2 in Hp2, Hw2, Ht2. destruct s2 as [t2 w2]. cbn [fst snd] in *.
  rewrite Hp1 in Hw2.
  match type of Hw1 with _ = after_send _ _ _ ?σ _ => set (σ1 := σ) in * end.
  match type of Hw2 with _ = after_send _ _ _ ?σ _ => set (σ2 := σ) in * end.
  assert (send_ready (provider t) chatId σ1 = true) as ready1
      by (unfold send_ready, σ1; cbn [newMessage]; by rewrite Hd1, Hdb, Hc, Hid).
  assert (send_ready (provider t) chatId σ2 = true) as ready2
      by (unfold send_ready, σ2; cbn [newMessage]; by rewrite Hd2, Hdb, Hc, Hid).
  destruct (after_send_stored cfg (provider t) chatId σ1 w ready1 Hf) as (Hm1 & Hc1 & Hf1).
  rewrite <- Hw1 in Hm1, Hc1, Hf1.
  destruct (after_send_stored cfg (provider t) chatId σ2 w1 ready2 Hf1) as (Hm2 & _ & _).
  rewrite <- Hw2 in Hm2.
  set (q := {| q_path := messages_path cfg chatId; q_orderBy := Some "createdAt" |}) in *.
  assert (messages_listener ρ2 = Some q) as Hq by (by rewrite Hl2, Hl1, Hl).
  exists (MessagesSnapshot (q_path q) (run_query q w2)),
         (messages_onSnapshot (run_query q w2) ρ2).
  split; [by unfold messages_delivery; cbn [fst snd]; rewrite Ht2, Hq|].
  split; [by cbn [step]; rewrite Ht2, Hq; cbn; rewrite bool_decide_eq_true_2|].
  unfold messages_onSnapshot. cbn [shown_messages setMessages]. rewrite docs_with_id.
  assert (run_query q w2 = merge_sort by_createdAt (messages w2 !!! messages_path cfg chatId))
    as -> by done.
  split; [apply merge_sort_Permutation|]. split; [apply Sorted_merge_sort, _|].
  apply earlier_stands_before; [apply Sorted_merge_sort, _|..|cbn; lia].
  - rewrite merge_sort_Permutation, Hm2, Hm1, !lookup_total_insert_eq.
    rewrite !elem_of_app, !elem_of_cons. left. right. by left.
  - rewrite merge_sort_Permutation, Hm2, !lookup_total_insert_eq.
    rewrite !elem_of_app, !elem_of_cons. right. by left.
Qed.

Lemma C3_witness :
  let cfg := {| app_id := None; initial_auth_token := None |} in
  let u := {| uid := "u1"; email := Some "a@x.org" |} in
  let room := ("r1", {| name := "General"; participants := Some [Some "u1"];
                        createdAt := 1; lastMessage := None; lastMessageTime := None |}) in
  let old t i := (i, {| text := "old"; senderId := "u2"; senderEmail := "b@x.org";
                        msg_createdAt := t |}) in
  let new t i s := (auto_id i, {| text := s; senderId := "u1"; senderEmail := "a@x.org";
                                  msg_createdAt := t |}) in
  let w0 := {| profiles := ∅; chats := {[ chats_path cfg := [room] ]};
               messages := {[ messages_path cfg "r1" := [old 5 "a"; old 3 "b"] ]};
               clock := 10; next_id := 0; faults := []; trace := [] |} in
  let s := step module_scope cfg (SelectChat room)
             (step module_scope cfg (ChatsSnapshot [room])
                (step module_scope cfg (IdentityChanged (Some u))
                   (step module_scope cfg (IdentityChanged None) (tree_init, w0)))) in
  let s1 := run module_scope cfg [TypeMessage " one "; SendMessage] s in
  let s2 := run module_scope cfg [TypeMessage "two"; SendMessage] s1 in
  ∃ e ρ',
    messages_delivery s2 = Some e
    ∧ transcript (step module_scope cfg e s2).1 = Some ("r1", ρ')
    ∧ before (new 10 0%nat "one") (new 12 1%nat "two") (shown_messages ρ')
    ∧ map key (render_messages (Some "u1") ρ') = ["b"; "a"; auto_id 0; auto_id 1].
Proof.
  intros cfg u room old new w0 s s1 s2.
  destruct (C3_transcript_in_ascending_creation_order cfg s "r1"
              {| shown_messages := []; newMessage := "";
                 messages_listener := Some (messages_query cfg "r1") |} " one " "two")
    as (_ & _ & _ & H).
  - subst s. do 4 (apply after_event; [|exact I]). apply at_first_mount.
  - vm_compute. reflexivity.
  - destruct H as (e & ρ' & He & Hρ & _ & _ & Hb); [reflexivity..|].
    exists e, ρ'. split; [exact He|]. split; [exact Hρ|].
    split; [vm_compute in Hb; exact Hb|].
    vm_compute in He. injection He as <-. vm_compute in Hρ. injection Hρ as <-.
    vm_compute. reflexivity.
Defined.

(** ** Navigation *)

(** X10 — selecting a shown room and going back, from any state the
    client can reach.  The selection mounts the transcript of that
    room with no messages, an empty draft and a listener for the
    ordered query on the room's messages, and unmounts the directory.  Going back clears the
    selection, drops the transcript together with whatever was typed
    in it, and mounts the directory anew: its list is empty until the
    next snapshot, its form is reset, and it listens for the same
    identity as before.  Nothing is sent on the way. *)
Theorem X10_select_then_back
    (cfg : config) (s : tree * world) (σ : list_state) (c : chat) (typed : string) :
  reachable module_scope cfg s →
  directory s.1 = Some σ →
  c ∈ shown_chats σ →
  c.1 ≠ "" →
  let s1 := step module_scope cfg (SelectChat c) s in
  let s2 := step module_scope cfg Back (step module_scope cfg (TypeMessage typed) s1) in
  app s1.1 = Some {| view := chatRoom; selectedChatId := Some c.1;
                     selectedChatName := name c.2 |}
  ∧ directory s1.1 = None
  ∧ transcript s1.1 =
      Some (c.1, {| shown_messages := []; newMessage := "";
                    messages_listener := Some (messages_query cfg c.1) |})
  ∧ app s2.1 = Some App_init
  ∧ transcript s2.1 = None
  ∧ directory s2.1 =
      Some {| shown_chats := []; newChatName := ""; showCreateChat := false;
              chats_listener := chats_listener σ |}
  ∧ s2.2 = s.2.
Proof.
  intros Hr Hd Hc Hid s1 s2.
  pose proof (reachable_settled cfg s Hr) as (_ & S2 & S3).
  pose proof (reachable_wired cfg s Hr) as (Hdb & _ & W1 & _).
  destruct s as [t w]. cbn [fst snd] in *.
  destruct S3 as (Hcu & a & Ha & Hv); [by rewrite Hd|].
  assert (transcript t = None) as Htr.
  { destruct (transcript t) eqn:E; [|done].
    destruct S2 as (_ & a' & Ha' & Hv'); [done|]. congruence. }
  specialize (W1 σ Hd). apply truthy_true in Hid.
  assert (s1 = (commit cfg (with_app (handleSelectChat c.1 (name c.2) a) t), w)) as E1.
  { subst s1. cbn [step]. rewrite Hd, Ha. by rewrite bool_decide_eq_true_2. }
  assert (s1.1 = {| provider := provider t;
                    app := Some {| view := chatRoom; selectedChatId := Some c.1;
                                   selectedChatName := name c.2 |};
                    directory := None;
                    transcript :=
                      Some (c.1, {| shown_messages := []; newMessage := "";
                                    messages_listener := Some (messages_query cfg c.1) |}) |})
    as E1'.
  { rewrite E1. unfold commit, App_render, handleSelectChat, messages_subscription. cbn.
    rewrite bool_decide_eq_false_2 by done. rewrite Hid. cbn.
    rewrite Hid, Htr, Hdb. reflexivity. }
  subst s2. rewrite E1 in *. clear E1 s1. cbn [fst] in E1'.
  cbn [step]. rewrite E1'. cbn [transcript app fst snd with_transcript].
  unfold commit, App_render, handleBackToChatList. cbn.
  rewrite bool_decide_eq_false_2 by done. cbn. by rewrite W1.
Qed.

Lemma X10_witness :
  let cfg := {| app_id := None; initial_auth_token := None |} in
  let w0 := {| profiles := ∅; chats := ∅; messages := ∅; clock := 0; next_id := 0;
               faults := []; trace := [] |} in
  let u := {| uid := "u1"; email := Some "a@x.org" |} in
  let room := ("r1", {| name := "General"; participants := Some [Some "u1"];
                        createdAt := 0; lastMessage := None; lastMessageTime := None |}) in
  let s := run module_scope cfg
             [IdentityChanged None; IdentityChanged (Some u); ChatsSnapshot [room]]
             (tree_init, w0) in
  transcript (step module_scope cfg Back
                (step module_scope cfg (TypeMessage "unsent")
                   (step module_scope cfg (SelectChat room) s))).1 = None.
Proof.
  intros cfg w0 u room s.
  destruct (X10_select_then_back cfg s
              {| shown_chats := [room]; newChatName := ""; showCreateChat := false;
                 chats_listener := Some "u1" |} room "unsent")
    as (_ & _ & _ & _ & H & _);
    [by eexists [_; _; _], w0 | vm_compute; reflexivity | by apply list_elem_of_singleton
    | done | exact H].
Defined.

(** ** The session manager and the profile *)

Lemma app_cons c s t : String c s +:+ t = String c (s +:+ t).
Proof. reflexivity. Qed.

Lemma double_slash_segment st x r :
  has_slash x = false →
  double_slash_from st (x +:+ String "/" r) =
    if x is "" then st || double_slash_from true r else double_slash_from true r.
Proof.
  revert st. induction x as [|c x IH]; intros st H; [done|].
  rewrite app_cons. cbn in *. apply orb_false_iff in H as [Hc Hx]. rewrite Hc.
  rewrite (IH _ Hx). by destruct x.
Qed.

Lemma segments_segment st x r :
  has_slash x = false →
  segments_from st (x +:+ String "/" r) =
    ((if st || negb (String.eqb x "") then 1 else 0) + segments_from false r)%nat.
Proof.
  revert st. induction x as [|c x IH]; intros st H.
  - change ("" +:+ String "/" r) with (String "/" r). cbn. by rewrite orb_false_r.
  - rewrite app_cons. cbn in *. apply orb_false_iff in H as [Hc Hx]. rewrite Hc.
    rewrite (IH _ Hx). cbn. by rewrite orb_true_r.
Qed.

Lemma profile_path_segments cfg u :
  profile_path cfg u =
    "artifacts" +:+ String "/"%char
      (appId cfg +:+ String "/"%char
         ("users" +:+ String "/"%char
            (uid u +:+ String "/"%char ("profile" +:+ String "/"%char "")))).
Proof. reflexivity. Qed.

(** The path of line 46 has the segments [artifacts], the app id,
    [users], the uid and [profile]: five when the app id and the uid
    are single segments, and an empty one leaves a ['//'].  [doc]
    refuses it either way. *)
Lemma profile_path_refused cfg u :
  has_slash (appId cfg) = false → has_slash (uid u) = false →
  valid_document_path (profile_path cfg u) = false.
Proof.
  intros Ha Hu. unfold valid_document_path, has_double_slash, segment_count.
  rewrite profile_path_segments.
  rewrite !double_slash_segment, !segments_segment by done.
  destruct (appId cfg) as [|a A]; [done|]. destruct (uid u) as [|b U]; [done|].
  reflexivity.
Qed.

(** A presence event on such a path: the identity is recorded, then
    the callback fails before any request is sent. *)
Lemma callback_present_refused cfg u σ w :
  has_slash (appId cfg) = false →
  has_slash (uid u) = false →
  let '(r, (σ', w')) := onAuthStateChanged_callback module_scope cfg (Some u) (σ, w) in
  (∃ e, r = Throw e)
  ∧ currentUser σ' = Some u ∧ userId σ' = Some (uid u)
  ∧ loading σ' = loading σ
  ∧ sent_requests (trace w') = sent_requests (trace w)
  ∧ profiles w' = profiles w ∧ chats w' = chats w ∧ messages w' = messages w.
Proof.
  intros Ha Hu. destruct (has_token cfg) eqn:Ht.
  - rewrite callback_present_with_token by done. cbn.
    rewrite sent_requests_app, app_nil_r. eauto 10.
  - rewrite callback_present_without_token by done.
    rewrite profile_path_refused by done. cbn. eauto 10.
Qed.

(** X11 — a presence event never reaches the profile.  When the app
    id and the uid contain no ['/'], the callback records the identity
    and then fails, with a token or without: the profile is neither
    read nor written, nothing is sent, nothing stored changes, and
    [loading] is left as it was. *)
Theorem X11_presence_event_never_reaches_the_profile
    (cfg : config) (u : User) (σ : auth_state) (w : world) :
  has_slash (appId cfg) = false →
  has_slash (uid u) = false →
  let '(r, (σ', w')) := onAuthStateChanged_callback module_scope cfg (Some u) (σ, w) in
  (∃ e, r = Throw e)
  ∧ currentUser σ' = Some u ∧ userId σ' = Some (uid u)
  ∧ loading σ' = loading σ
  ∧ sent_requests (trace w') = sent_requests (trace w)
  ∧ profiles w' = profiles w ∧ chats w' = chats w ∧ messages w' = messages w.
Proof. apply callback_present_refused. Qed.

Lemma X11_witness :
  let cfg := {| app_id := None; initial_auth_token := None |} in
  let u := {| uid := "u1"; email := Some "ada@example.org" |} in
  let w := {| profiles := ∅; chats := ∅; messages := ∅; clock := 0; next_id := 0;
              faults := []; trace := [] |} in
  let '(_, (σ', w')) :=
    onAuthStateChanged_callback module_scope cfg (Some u) (AuthProvider_init, w) in
  loading σ' = true ∧ profiles w' = ∅ ∧ sent_requests (trace w') = [].
Proof.
  intros cfg u w.
  pose proof (X11_presence_event_never_reaches_the_profile cfg u AuthProvider_init w) as H.
  destruct (onAuthStateChanged_callback module_scope cfg (Some u) (AuthProvider_init, w))
    as [r [σ' w']].
  destruct H as (_ & _ & _ & Hl & Hs & Hp & _); [reflexivity..|].
  split; [exact Hl|]. split; [exact Hp|exact Hs].
Defined.

(** X12 — when the first events all report an identity, the loading
    screen stays.  With an app id and uids without ['/'], after any
    number of presence events from the first mount [loading] is still
    true and [App] is not mounted, the last identity is recorded, and
    nothing has been sent or stored; it is the first absence event
    that ends the loading and mounts [App], on the login view. *)
Theorem X12_presence_events_keep_the_loading_screen
    (cfg : config) (us : list User) (w : world) :
  has_slash (appId cfg) = false →
  Forall (λ u, has_slash (uid u) = false) us →
  let s := run module_scope cfg (IdentityChanged ∘ Some <$> us) (tree_init, w) in
  loading (provider s.1) = true
  ∧ app s.1 = None ∧ directory s.1 = None ∧ transcript s.1 = None
  ∧ currentUser (provider s.1) = last us
  ∧ profiles s.2 = profiles w
  ∧ sent_requests (trace s.2) = sent_requests (trace w)
  ∧ view <$> app (step module_scope cfg (IdentityChanged None) s).1 = Some login.
Proof.
  intros Ha Hus s. subst s.
  assert (∀ t w0,
            loading (provider t) = true → app t = None → directory t = None →
            transcript t = None →
            let s := run module_scope cfg (IdentityChanged ∘ Some <$> us) (t, w0) in
            loading (provider s.1) = true
            ∧ app s.1 = None ∧ directory s.1 = None ∧ transcript s.1 = None
            ∧ currentUser (provider s.1) = from_option Some (currentUser (provider t)) (last us)
            ∧ profiles s.2 = profiles w0
            ∧ sent_requests (trace s.2) = sent_requests (trace w0)) as Hrun.
  { induction Hus as [|u us Hu Hus IH]; intros t w0 Hl Hap Hd Htr; [by cbn|].
    cbn [fmap list_fmap run fold_left compose].
    change (fold_left (λ s e, step module_scope cfg e s) (IdentityChanged ∘ Some <$> us) ?x)
      with (run module_scope cfg (IdentityChanged ∘ Some <$> us) x).
    cbn [step].
    pose proof (callback_present_refused cfg u (provider t) w0 Ha Hu) as Hcb.
    destruct (onAuthStateChanged_callback _ _ _ _) as [r [σ' w']].
    destruct Hcb as (_ & Hcu & _ & Hl' & Hs & Hp & _).
    unfold rerender, rerender_steps. cbn [provider with_provider].
    rewrite Hl', Hl. cbn [last from_option]. unfold id.
    destruct (IH {| provider := σ'; app := None; directory := None; transcript := None |} w')
      as (I1 & I2 & I3 & I4 & I5 & I6 & I7); [by cbn; congruence|done..|].
    rewrite I6, I7, Hp, Hs. cbn [provider] in I5. rewrite Hcu in I5.
    do 4 (split; [done|]). split; [|done]. rewrite I5, (last_cons u us). by destruct (last us). }
  destruct (Hrun tree_init w) as (H1 & H2 & H3 & H4 & H5 & H6 & H7); [done..|].
  do 4 (split; [done|]). split; [by rewrite H5; destruct (last us)|].
  do 2 (split; [done|]).
  destruct (run module_scope cfg (IdentityChanged ∘ Some <$> us) (tree_init, w))
    as [t w'] eqn:E. cbn [fst snd] in *. cbn [step].
  pose proof (callback_records cfg None (provider t) w') as Hcb.
  destruct (onAuthStateChanged_callback _ _ _ _) as [r [σ' w'']].
  destruct Hcb as (Hcu & _ & _ & Hld & Hok). specialize (Hld (Hok eq_refl)). cbn [fst].
  destruct (rerender_absent cfg (currentUser (provider t)) (with_provider σ' t))
    as (Hview & _); [done|done| |done].
  cbn. intros a Hap. congruence.
Qed.

Lemma X12_witness :
  let cfg := {| app_id := None; initial_auth_token := None |} in
  let u := {| uid := "u1"; email := None |} in
  let w := {| profiles := ∅; chats := ∅; messages := ∅; clock := 0; next_id := 0;
              faults := []; trace := [] |} in
  app (run module_scope cfg [IdentityChanged (Some u); IdentityChanged (Some u)]
         (tree_init, w)).1 = None.
Proof.
  intros cfg u w.
  destruct (X12_presence_events_keep_the_loading_screen cfg [u; u] w)
    as (_ & H & _); [reflexivity | by repeat constructor | exact H].
Defined.

(** X13 — once loading is over, an event that brings another
    identity than the current one puts the view on the room list,
    whatever it was and even if the callback fails after recording the
    identity: the transcript, if any, is unmounted and the directory
    is on screen with the listener of the new identity. *)
Theorem X13_new_identity_leads_to_the_room_list
    (cfg : config) (s : tree * world) (u : User) :
  reachable module_scope cfg s →
  loading (provider s.1) = false →
  currentUser (provider s.1) ≠ Some u →
  let s' := step module_scope cfg (IdentityChanged (Some u)) s in
  view <$> app s'.1 = Some chatList
  ∧ transcript s'.1 = None
  ∧ ∃ σ', directory s'.1 = Some σ'
          ∧ chats_listener σ' = (if truthy (uid u) then Some (uid u) else None).
Proof.
  intros Hr Hl Hne s'. subst s'.
  pose proof (reachable_wired cfg s Hr) as (Hdb & _).
  destruct s as [t w]. cbn [fst snd step] in *.
  pose proof (callback_records cfg (Some u) (provider t) w) as Hcb.
  destruct (onAuthStateChanged_callback _ _ _ _) as [r [σ' w']] eqn:Hrun.
  destruct Hcb as (Hcu & Hid & Hdb' & Hld & _). cbn [fst].
  assert (loading σ' = false) as Hl'.
  { destruct r; [by apply Hld; destruct a|].
    destruct (has_token cfg) eqn:Ht.
    - rewrite callback_present_with_token in Hrun by done.
      injection Hrun as _ <- _. done.
    - rewrite callback_present_without_token in Hrun by done.
      destruct (valid_document_path (profile_path cfg u)); cbn in Hrun;
        [|by injection Hrun as _ <- _].
      destruct (served 0 w); cbn in Hrun; [|by injection Hrun as _ <- _].
      destruct (profiles w !! profile_path cfg u); [done|].
      destruct (served 1 w); cbn in Hrun; [done|by injection Hrun as _ <- _]. }
  unfold rerender, rerender_steps. cbn [provider with_provider app].
  rewrite Hl', Hcu.
  assert (∀ a t0, provider t0 = σ' → app t0 = Some a →
             let t1 := commit cfg (with_app (App_effect (Some u) a) t0) in
             view <$> app t1 = Some chatList ∧ transcript t1 = None
             ∧ ∃ ρ, directory t1 = Some ρ
                    ∧ chats_listener ρ = (if truthy (uid u) then Some (uid u) else None))
    as Hfinal.
  { intros a t0 Hp Ha. unfold commit, App_render, App_effect, chats_subscription. cbn.
    rewrite Hp, Hcu, Hid, Hdb', Hdb. cbn. eauto. }
  destruct (app t) as [a|] eqn:Ha; cbn -[commit].
  - rewrite bool_decide_eq_false_2 by congruence. cbn -[commit].
    apply Hfinal; [apply (commit_keeps cfg (with_provider σ' t))|].
    destruct (commit_keeps cfg (with_provider σ' t)) as [_ ->]. done.
  - apply Hfinal; [apply (commit_keeps cfg (with_app App_init (with_provider σ' t)))|].
    destruct (commit_keeps cfg (with_app App_init (with_provider σ' t))) as [_ ->]. done.
Qed.

Lemma X13_witness :
  let cfg := {| app_id := None; initial_auth_token := None |} in
  let w0 := {| profiles := ∅; chats := ∅; messages := ∅; clock := 0; next_id := 0;
               faults := []; trace := [] |} in
  let u := {| uid := "u1"; email := Some "a@x.org" |} in
  let s := run module_scope cfg [IdentityChanged None] (tree_init, w0) in
  view <$> app s.1 = Some login
  ∧ view <$> app (step module_scope cfg (IdentityChanged (Some u)) s).1 = Some chatList.
Proof.
  intros cfg w0 u s. split; [reflexivity|].
  destruct (X13_new_identity_leads_to_the_room_list cfg s u) as (H & _);
    [by eexists [_], w0 | reflexivity | done | exact H].
Defined.

(** ** Sending and creating from the screens *)

(** X14 — in every state the client can reach with a transcript on
    screen, a send whose draft is not blank and whose insert is served
    appends exactly one message to the messages of the selected room,
    signed with the id of the current identity and stamped by the
    server; the messages of every other path are untouched. *)
Theorem X14_message_goes_to_the_selected_room_as_the_current_identity
    (cfg : config) (s : tree * world) (chatId : string) (ρ : room_state) (u : User) :
  reachable module_scope cfg s →
  transcript s.1 = Some (chatId, ρ) →
  currentUser (provider s.1) = Some u →
  uid u ≠ "" →
  whitespace_only (newMessage ρ) = false →
  served 0 s.2 = true →
  let s' := step module_scope cfg SendMessage s in
  (selectedChatId <$> app s.1) = Some (Some chatId)
  ∧ messages s'.2 !!! messages_path cfg chatId =
      messages s.2 !!! messages_path cfg chatId ++
        [(auto_id (next_id s.2),
          {| text := trim (newMessage ρ); senderId := uid u;
             senderEmail := senderEmail_of (Some u) (uid u);
             msg_createdAt := clock s.2 |})]
  ∧ ∀ path, path ≠ messages_path cfg chatId →
      messages s'.2 !!! path = messages s.2 !!! path.
Proof.
  intros Hr Ht Hcu Hid Hblank Hs s'. subst s'.
  pose proof (reachable_wired cfg s Hr) as (Hdb & Hu & _ & W2).
  destruct s as [t w]. cbn [fst snd] in *.
  destruct (W2 chatId ρ Ht) as (Hc & _ & a & Ha & Hsel).
  assert (send_ready (provider t) chatId ρ = true) as ready.
  { unfold send_ready. rewrite Hdb, Hc, Hu, Hcu. cbn.
    apply truthy_true in Hid as ->.
    destruct (truthy (trim (newMessage ρ))) eqn:E; [done|].
    apply truthy_false, trim_empty in E. congruence. }
  split; [by rewrite Ha; cbn; rewrite Hsel|].
  cbn [step]. rewrite Ht.
  rewrite (handleSendMessage_cases _ _ _ _ _ ready), Hs. cbn [negb].
  unfold message_of. rewrite Hu, Hcu. cbn [fmap option_fmap option_map default].
  destruct (served 1 w), (room_exists cfg chatId w); cbn;
    rewrite lookup_total_insert_eq; (split; [done|]);
    intros path Hp; by rewrite lookup_total_insert_ne.
Qed.

Lemma X14_witness :
  let cfg := {| app_id := None; initial_auth_token := None |} in
  let w0 := {| profiles := ∅; chats := ∅; messages := ∅; clock := 0; next_id := 0;
               faults := []; trace := [] |} in
  let u := {| uid := "u1"; email := Some "a@x.org" |} in
  let room := ("r1", {| name := "General"; participants := Some [Some "u1"];
                        createdAt := 0; lastMessage := None; lastMessageTime := None |}) in
  let s := run module_scope cfg
             [IdentityChanged None; IdentityChanged (Some u); ChatsSnapshot [room];
              SelectChat room; TypeMessage " hi "] (tree_init, w0) in
  messages (step module_scope cfg SendMessage s).2 !!! messages_path cfg "r1" =
    [("doc0", {| text := "hi"; senderId := "u1"; senderEmail := "a@x.org";
                 msg_createdAt := 0 |})].
Proof.
  intros cfg w0 u room s.
  edestruct (X14_message_goes_to_the_selected_room_as_the_current_identity cfg s "r1")
    as (_ & H & _);
    [by eexists [_; _; _; _; _], w0 | vm_compute; reflexivity | vm_compute; reflexivity
    | done | reflexivity | reflexivity |].
  rewrite H. vm_compute. reflexivity.
Defined.

(** X15 — the creator sees the room they create.  In every state the
    client can reach with the directory on screen for an identity with
    a non-empty id, a create-room action with a name that is not blank
    and a served insert, followed by a snapshot of the stored rooms,
    shows a room with the trimmed name, the creator as its one
    participant and no last message; the form is reset. *)
Theorem X15_creator_sees_the_new_room
    (cfg : config) (s : tree * world) (σ : list_state) (u : User) :
  reachable module_scope cfg s →
  directory s.1 = Some σ →
  currentUser (provider s.1) = Some u →
  uid u ≠ "" →
  whitespace_only (newChatName σ) = false →
  served 0 s.2 = true →
  let s1 := step module_scope cfg CreateChat s in
  let s2 := step module_scope cfg (ChatsSnapshot (chats s1.2 !!! chats_path cfg)) s1 in
  ∃ σ2, directory s2.1 = Some σ2
    ∧ (auto_id (next_id s.2),
       {| name := trim (newChatName σ); participants := Some [Some (uid u)];
          createdAt := clock s.2; lastMessage := None; lastMessageTime := None |})
      ∈ shown_chats σ2
    ∧ newChatName σ2 = "" ∧ showCreateChat σ2 = false.
Proof.
  intros Hr Hd Hcu Hid Hblank Hs s1 s2.
  pose proof (reachable_wired cfg s Hr) as (Hdb & Hu & W1 & _).
  destruct s as [t w]. cbn [fst snd] in *.
  specialize (W1 σ Hd). unfold chats_subscription in W1.
  rewrite Hdb, Hu, Hcu in W1. cbn in W1. apply truthy_true in Hid. rewrite Hid in W1.
  assert (truthy (trim (newChatName σ)) = true) as Hn.
  { destruct (truthy (trim (newChatName σ))) eqn:E; [done|].
    apply truthy_false, trim_empty in E. congruence. }
  subst s2 s1. cbn [step]. rewrite Hd.
  rewrite (handleCreateChat_cases _ _ _ _ Hn Hdb), Hs.
  cbn [step fst snd with_directory directory chats_listener].
  rewrite W1. rewrite chats_onSnapshot_filter.
  eexists. split; [reflexivity|]. cbn. split; [|done].
  rewrite lookup_total_insert_eq, list_elem_of_In, filter_In. split.
  - rewrite Hu, Hcu. apply list_elem_of_In, elem_of_app. right.
    by apply list_elem_of_singleton.
  - cbn. apply bool_decide_eq_true. by apply list_elem_of_singleton.
Qed.

Lemma X15_witness :
  let cfg := {| app_id := None; initial_auth_token := None |} in
  let w0 := {| profiles := ∅; chats := ∅; messages := ∅; clock := 0; next_id := 0;
               faults := []; trace := [] |} in
  let u := {| uid := "u1"; email := Some "a@x.org" |} in
  let s := run module_scope cfg
             [IdentityChanged None; IdentityChanged (Some u); TypeChatName " Team  "]
             (tree_init, w0) in
  let s1 := step module_scope cfg CreateChat s in
  let s2 := step module_scope cfg (ChatsSnapshot (chats s1.2 !!! chats_path cfg)) s1 in
  ∃ σ2, directory s2.1 = Some σ2
    ∧ ("doc0", {| name := "Team"; participants := Some [Some "u1"]; createdAt := 0;
                  lastMessage := None; lastMessageTime := None |}) ∈ shown_chats σ2.
Proof.
  intros cfg w0 u s s1 s2.
  edestruct (X15_creator_sees_the_new_room cfg s) as (σ2 & Hd & Hin & _);
    [by eexists [_; _; _], w0 | vm_compute; reflexivity | vm_compute; reflexivity
    | done | reflexivity | reflexivity |].
  exists σ2. split; [exact Hd|exact Hin].
Defined.

(** ** The directory's list *)

Lemma filter_sublist {A} (f : A → bool) l : sublist (List.filter f l) l.
Proof.
  induction l as [|x l IH]; cbn; [constructor|].
  destruct (f x); by constructor.
Qed.

Lemma filter_twice {A} (f : A → bool) l :
  List.filter f (List.filter f l) = List.filter f l.
Proof.
  induction l as [|x l IH]; cbn; [done|].
  destruct (f x) eqn:Hx; cbn; [|done]. by rewrite Hx, IH.
Qed.

(** X16 — the directory shows the rooms it keeps in the order of the
    snapshot (they form a sub-sequence of it); a snapshot replaces the
    shown list as a whole, whatever was shown before, and leaves the
    form fields and the listener alone.  Delivering the shown list
    again changes nothing. *)
Theorem X16_directory_keeps_snapshot_order
    (userId : option string) (docs : list (string * chat_doc)) (σ : list_state) :
  ∃ σ', chats_onSnapshot userId docs σ = Ok σ'
    ∧ sublist (shown_chats σ') docs
    ∧ newChatName σ' = newChatName σ
    ∧ showCreateChat σ' = showCreateChat σ
    ∧ chats_listener σ' = chats_listener σ
    ∧ (∀ before, chats_onSnapshot userId docs (setChats before σ) = Ok σ')
    ∧ chats_onSnapshot userId (shown_chats σ') σ' = Ok σ'.
Proof.
  eexists. split; [apply chats_onSnapshot_filter|]. cbn.
  split; [apply filter_sublist|]. do 3 (split; [done|]). split.
  - intros prev. by rewrite chats_onSnapshot_filter.
  - rewrite chats_onSnapshot_filter. cbn. by rewrite filter_twice.
Qed.

(** ** Signing in and out *)

(** X17 — a submit of the sign-in form.  The call made is the
    registration or the sign-in according to the intent, with the
    email and password exactly as typed; the fields and the intent are
    kept.  What was shown before is cleared first, so afterwards a
    success message and an error are never shown together: on success
    there is a message, no error and nothing on the console; on
    failure there is no message, the service's message is logged, and
    the error shown is that message, except for the code
    ['auth/operation-not-allowed'], which shows the fixed hint. *)
Theorem X17_auth_form_submit (reply : auth_reply) (σ : auth_form) :
  let o := handleAuth reply σ in
  email_field (form o) = email_field σ
  ∧ password_field (form o) = password_field σ
  ∧ isRegistering (form o) = isRegistering σ
  ∧ called o =
      (if isRegistering σ
       then CreateUserWithEmailAndPassword (email_field σ) (password_field σ)
       else SignInWithEmailAndPassword (email_field σ) (password_field σ))
  ∧ (message_text (form o) ≠ "" → error_text (form o) = "")
  ∧ (reply = Resolves →
     error_text (form o) = "" ∧ message_text (form o) ≠ "" ∧ console o = [])
  ∧ (∀ err, reply = Rejects err →
       message_text (form o) = "" ∧ console o = [err_message err]
       ∧ (err_code err = "auth/operation-not-allowed" →
          error_text (form o) = operation_not_allowed_text)
       ∧ (err_code err ≠ "auth/operation-not-allowed" →
          error_text (form o) = err_message err)).
Proof.
  intros o. subst o. destruct reply as [|err]; cbn.
  - do 4 (split; [done|]). split; [done|]. split; [|done].
    intros _. split; [done|]. split; [|done]. by destruct (isRegistering σ).
  - do 4 (split; [done|]). split; [done|]. split; [done|].
    intros e [= <-]. do 2 (split; [done|]). split.
    + intros ->. done.
    + intros Hne. apply String.eqb_neq in Hne. by rewrite Hne.
Qed.

Lemma X17_witness :
  let σ := {| email_field := "ada@example.org"; password_field := "pw";
              isRegistering := true; error_text := "old error"; message_text := "" |} in
  error_text (form (handleAuth
                      (Rejects {| err_code := "auth/operation-not-allowed";
                                  err_message := "Firebase: Error." |}) σ))
  = operation_not_allowed_text
  ∧ error_text (form (handleAuth Resolves σ)) = "".
Proof.
  intros σ. split.
  - destruct (X17_auth_form_submit
                (Rejects {| err_code := "auth/operation-not-allowed";
                            err_message := "Firebase: Error." |}) σ)
      as (_ & _ & _ & _ & _ & _ & H).
    destruct (H _ eq_refl) as (_ & _ & Hhint & _). by apply Hhint.
  - destruct (X17_auth_form_submit Resolves σ) as (_ & _ & _ & _ & _ & H & _).
    by destruct H.
Defined.

(** X18 — logging out does not navigate.  In every state the client
    can reach with the directory on screen, the logout sends the
    sign-out and leaves every mounted component as it is, whether the
    service accepts or not; it is the identity-absence event that
    follows which puts the view on [login] and unmounts the
    directory. *)
Theorem X18_logout_waits_for_the_identity_event
    (cfg : config) (s : tree * world) (σ : list_state) :
  reachable module_scope cfg s →
  directory s.1 = Some σ →
  let s1 := step module_scope cfg Logout s in
  let s2 := step module_scope cfg (IdentityChanged None) s1 in
  s1.1 = s.1
  ∧ sent_requests (trace s1.2) = sent_requests (trace s.2) ++ [SignOut]
  ∧ view <$> app s1.1 = Some chatList
  ∧ view <$> app s2.1 = Some login
  ∧ directory s2.1 = None.
Proof.
  intros Hr Hd s1 s2.
  pose proof (reachable_settled cfg s Hr) as (S1 & _ & S3).
  destruct s as [t w]. cbn [fst snd] in *.
  destruct S3 as (Hcu & a & Ha & Hv); [by rewrite Hd|].
  assert (s1.1 = t ∧ sent_requests (trace s1.2) = sent_requests (trace w) ++ [SignOut])
    as [E1 E2].
  { subst s1. cbn [step]. rewrite Hd, handleLogout_cases.
    destruct t as [p ap d tr]. cbn in Hd. subst d.
    destruct (served 0 w); cbn; rewrite !sent_requests_app; cbn;
      by rewrite ?app_nil_r. }
  split; [done|]. split; [done|]. split; [by rewrite E1, Ha; cbn; rewrite Hv|].
  subst s2. destruct s1 as [t1 w1]. cbn [fst snd] in *. subst t1. cbn [step].
  pose proof (callback_records cfg None (provider t) w1) as Hcb.
  destruct (onAuthStateChanged_callback _ _ _ _) as [r [σ' w']].
  destruct Hcb as (Hcu' & _ & _ & Hld & Hok). specialize (Hld (Hok eq_refl)).
  cbn [fst].
  destruct (rerender_absent cfg (currentUser (provider t)) (with_provider σ' t))
    as (Hview & _ & Hdir); [done|done|by cbn; auto|].
  by split.
Qed.

Lemma X18_witness :
  let cfg := {| app_id := None; initial_auth_token := None |} in
  let w0 := {| profiles := ∅; chats := ∅; messages := ∅; clock := 0; next_id := 0;
               faults := []; trace := [] |} in
  let u := {| uid := "u1"; email := Some "a@x.org" |} in
  let s := run module_scope cfg [IdentityChanged None; IdentityChanged (Some u)]
             (tree_init, w0) in
  (step module_scope cfg Logout s).1 = s.1
  ∧ view <$> app (step module_scope cfg (IdentityChanged None)
                    (step module_scope cfg Logout s)).1 = Some login.
Proof.
  intros cfg w0 u s.
  edestruct (X18_logout_waits_for_the_identity_event cfg s) as (H1 & _ & _ & H2 & _);
    [by eexists [_; _], w0 | vm_compute; reflexivity |].
  split; [exact H1|exact H2].
Defined.
